(** * ContextFilePicker: selection / preview controller

    A shallow embedding of
    [frontend/src/components/ContextFilePicker.tsx].

    The component is a React function component.  Its handlers are
    closures over the props of the render that created them; they call
    [onSelectionChange], the two state setters, the Tauri [invoke] bridge
    and [fetch].  The embedding keeps that shape:

    - JavaScript arrays of paths live in a store and are handled through
      references, so that [[...selectedPaths]], [push] and [filter] allocate
      and mutate as they do in the source;
    - the handlers are written in a small state monad over a [world] that
      holds the store, the props, the two pieces of component state, the
      suspended [async] continuations and a log of the calls made to the
      outside;
    - every [await] is a suspension point: the part of a handler before it
      and the part after it are separate definitions, and the part after it
      takes the settlement of the awaited promise as an argument;
    - the state cells are held at their declared types; the end of
      [handlePreview], which stores what [response.json()] yields without
      looking at it, is given as well on worlds whose previews cell holds a
      value of any type. *)

From Stdlib Require Import String Ascii List Bool Arith ZArith Lia.
Import ListNotations.

#[local] Open Scope string_scope.
#[local] Open Scope list_scope.

(* ------------------------------------------------------------------ *)
(** ** Values *)

(** [ContextFilePreview] of [@/types/rag], as the preview endpoint returns
    it and as the component reads it. *)
Record ContextFilePreview : Type := mkPreview {
  file_path : string;
  filename : string;
  text_preview : string;
  text_length : Z
}.

(** The settlement of an awaited promise. *)
Inductive outcome (A : Type) : Type :=
| Resolved (a : A)
| Rejected.
Arguments Resolved {A} a.
Arguments Rejected {A}.

(** A reference to a JavaScript array of strings. *)
Definition ref : Type := nat.

(** The store: the array at reference [r] is the [r]-th cell. *)
Definition store : Type := list (list string).

Definition deref (h : store) (r : ref) : list string := nth r h [].

Fixpoint assign (h : store) (r : ref) (a : list string) : store :=
  match h, r with
  | [], _ => []
  | _ :: h', O => a :: h'
  | c :: h', S r' => c :: assign h' r' a
  end.

(** The argument of a React state setter: a value, or a function of the
    previous state. *)
Inductive SetStateAction (A : Type) : Type :=
| Value (a : A)
| Updater (f : A -> A).
Arguments Value {A} a.
Arguments Updater {A} f.

Definition applyAction {A : Type} (act : SetStateAction A) (prev : A) : A :=
  match act with
  | Value a => a
  | Updater f => f prev
  end.

(** Calls that leave the component. *)
Inductive call : Type :=
| Invoke (cmd : string)
| Fetch (url : string) (question : string) (file_paths : list string)
| ConsoleError (msg : string)
| OnSelectionChange (paths : ref).

(** A handler suspended at an [await]. *)
Inductive task : Type :=
| AddFilesK (selectedPaths : ref)
| AddFolderK (selectedPaths : ref)
| PreviewFetchK (file_paths : list string)
| PreviewJsonK (file_paths : list string).

Record world : Type := mkWorld {
  arrays : store;
  (* props *)
  selectedPaths : ref;
  apiBaseUrl : string;
  (* useState *)
  previews : list ContextFilePreview;
  isLoadingPreview : bool;
  (* suspended continuations, oldest first *)
  pending : list task;
  (* calls made so far, oldest first *)
  calls : list call
}.

(** The selection as the component currently receives it. *)
Definition paths (w : world) : list string := deref (arrays w) (selectedPaths w).

(** Every reference the world holds points into the store. *)
Definition task_ref_ok (n : nat) (t : task) : bool :=
  match t with
  | AddFilesK r | AddFolderK r => Nat.ltb r n
  | PreviewFetchK _ | PreviewJsonK _ => true
  end.

Definition wf (w : world) : bool :=
  Nat.ltb (selectedPaths w) (length (arrays w))
  && forallb (task_ref_ok (length (arrays w))) (pending w).

(* ------------------------------------------------------------------ *)
(** ** The monad of handlers *)

Definition M (A : Type) : Type := world -> A * world.

Definition ret {A : Type} (a : A) : M A := fun w => (a, w).

Definition bind {A B : Type} (c : M A) (k : A -> M B) : M B :=
  fun w => let (a, w') := c w in k a w'.

Definition exec {A : Type} (c : M A) (w : world) : world := snd (c w).

Declare Scope handler_scope.
Delimit Scope handler_scope with handler.
Notation "x <- c1 ;; c2" := (bind c1 (fun x => c2))
  (at level 61, c1 at next level, right associativity) : handler_scope.
Notation "c1 ;; c2" := (bind c1 (fun _ => c2))
  (at level 61, right associativity) : handler_scope.
#[local] Open Scope handler_scope.

(** [for (const x of xs) body] *)
Fixpoint for_of {A : Type} (xs : list A) (body : A -> M unit) : M unit :=
  match xs with
  | [] => ret tt
  | x :: xs' => body x ;; for_of xs' body
  end.

(** *** Arrays *)

Definition set_arrays (h : store) (w : world) : world :=
  mkWorld h (selectedPaths w) (apiBaseUrl w) (previews w)
          (isLoadingPreview w) (pending w) (calls w).

(** An array literal: a new array with the given elements. *)
Definition array_new (a : list string) : M ref :=
  fun w => (length (arrays w), set_arrays (arrays w ++ [a]) w).

Definition array_read (r : ref) : M (list string) :=
  fun w => (deref (arrays w) r, w).

(** [[...r]] *)
Definition array_spread (r : ref) : M ref :=
  a <- array_read r ;; array_new a.

(** [[...r, x]] *)
Definition array_spread_with (r : ref) (x : string) : M ref :=
  a <- array_read r ;; array_new (a ++ [x]).

(** [r.includes(x)] *)
Definition includes (a : list string) (x : string) : bool :=
  existsb (String.eqb x) a.

Definition array_includes (r : ref) (x : string) : M bool :=
  a <- array_read r ;; ret (includes a x).

(** [r.push(x)], in place *)
Definition array_push (r : ref) (x : string) : M unit :=
  fun w => (tt, set_arrays (assign (arrays w) r (deref (arrays w) r ++ [x])) w).

(** [r.filter(keep)] *)
Definition array_filter (r : ref) (keep : string -> bool) : M ref :=
  a <- array_read r ;; array_new (filter keep a).

(** [r.length] *)
Definition array_length (r : ref) : M nat :=
  a <- array_read r ;; ret (length a).

(** *** Calls to the outside *)

Definition log (c : call) : M unit :=
  fun w => (tt, mkWorld (arrays w) (selectedPaths w) (apiBaseUrl w) (previews w)
                        (isLoadingPreview w) (pending w) (calls w ++ [c])).

(** Suspend the running handler at an [await]. *)
Definition suspend (t : task) : M unit :=
  fun w => (tt, mkWorld (arrays w) (selectedPaths w) (apiBaseUrl w) (previews w)
                        (isLoadingPreview w) (pending w ++ [t]) (calls w)).

Definition console_error (msg : string) : M unit := log (ConsoleError msg).

(** Modelled from the spec: the embedding application, which owns
    [selectedPaths] and is not part of this file's source.  It is notified
    through [onSelectionChange] and renders the picker again with the array
    it was given ("each returns the new authoritative value, which the
    caller must then propagate to the single owner"). *)
Definition onSelectionChange (r : ref) : M unit :=
  log (OnSelectionChange r) ;;
  fun w => (tt, mkWorld (arrays w) r (apiBaseUrl w) (previews w)
                        (isLoadingPreview w) (pending w) (calls w)).

Definition setPreviews (act : SetStateAction (list ContextFilePreview)) : M unit :=
  fun w => (tt, mkWorld (arrays w) (selectedPaths w) (apiBaseUrl w)
                        (applyAction act (previews w))
                        (isLoadingPreview w) (pending w) (calls w)).

Definition setIsLoadingPreview (act : SetStateAction bool) : M unit :=
  fun w => (tt, mkWorld (arrays w) (selectedPaths w) (apiBaseUrl w) (previews w)
                        (applyAction act (isLoadingPreview w))
                        (pending w) (calls w)).

Definition get_apiBaseUrl : M string := fun w => (apiBaseUrl w, w).

(* ------------------------------------------------------------------ *)
(** ** The handlers *)

(** A string in a condition: every string but the empty one is truthy. *)
Definition truthy (s : string) : bool := negb (String.eqb s "").

(** [handleAddFiles], up to [await invoke('select_context_files')]. *)
Definition handleAddFiles (selectedPaths : ref) : M unit :=
  log (Invoke "select_context_files") ;;
  suspend (AddFilesK selectedPaths).

(** [handleAddFiles], from the settlement of the dialog on.  [None] is
    [null]; the test is [selected && selected.length > 0]. *)
Definition handleAddFiles_resume (selectedPaths : ref)
    (r : outcome (option (list string))) : M unit :=
  match r with
  | Resolved (Some selected) =>
      if Nat.ltb 0 (length selected) then
        newPaths <- array_spread selectedPaths ;;
        for_of selected (fun path =>
          present <- array_includes newPaths path ;;
          if negb present then array_push newPaths path else ret tt) ;;
        onSelectionChange newPaths
      else ret tt
  | Resolved None => ret tt
  | Rejected => console_error "Failed to open file picker:"
  end.

(** [handleAddFolder], up to [await invoke('select_context_folder')]. *)
Definition handleAddFolder (selectedPaths : ref) : M unit :=
  log (Invoke "select_context_folder") ;;
  suspend (AddFolderK selectedPaths).

(** [handleAddFolder], from the settlement of the dialog on.  The test
    [if (selected)] fails on [null] and on the empty string. *)
Definition handleAddFolder_resume (selectedPaths : ref)
    (r : outcome (option string)) : M unit :=
  match r with
  | Resolved (Some selected) =>
      if truthy selected then
        present <- array_includes selectedPaths selected ;;
        if negb present then
          newPaths <- array_spread_with selectedPaths selected ;;
          onSelectionChange newPaths
        else ret tt
      else ret tt
  | Resolved None => ret tt
  | Rejected => console_error "Failed to open folder picker:"
  end.

Definition handleRemovePath (selectedPaths : ref) (pathToRemove : string) : M unit :=
  kept <- array_filter selectedPaths (fun p => negb (String.eqb p pathToRemove)) ;;
  onSelectionChange kept ;;
  setPreviews (Updater (fun prev =>
    filter (fun p => negb (String.eqb (file_path p) pathToRemove)) prev)).

Definition handleClearAll : M unit :=
  empty <- array_new [] ;;
  onSelectionChange empty ;;
  setPreviews (Value []).

(** [handlePreview], up to [await fetch(...)]. *)
Definition handlePreview (selectedPaths : ref) : M unit :=
  n <- array_length selectedPaths ;;
  if Nat.eqb n 0 then ret tt
  else
    setIsLoadingPreview (Value true) ;;
    base <- get_apiBaseUrl ;;
    body <- array_read selectedPaths ;;
    log (Fetch (base ++ "/read-context-files") "" body) ;;
    suspend (PreviewFetchK body).

(** [handlePreview], from the settlement of [fetch] up to
    [await response.json()] or to the end.  The resolved value is
    [response.ok]. *)
Definition handlePreview_afterFetch (file_paths : list string)
    (r : outcome bool) : M unit :=
  match r with
  | Resolved true => suspend (PreviewJsonK file_paths)
  | Resolved false => setIsLoadingPreview (Value false)
  | Rejected =>
      console_error "Failed to preview files:" ;;
      setIsLoadingPreview (Value false)
  end.

(** [handlePreview], from the settlement of [response.json()] on, for a
    body of the declared shape [ContextFilePreview[]].  The annotation is
    erased at run time: what the handler does with any value at all is
    [rt_handlePreview_afterJson] below, of which this is the restriction
    ([at_runtime_afterJson]). *)
Definition handlePreview_afterJson (r : outcome (list ContextFilePreview)) : M unit :=
  match r with
  | Resolved data =>
      setPreviews (Value data) ;;
      setIsLoadingPreview (Value false)
  | Rejected =>
      console_error "Failed to preview files:" ;;
      setIsLoadingPreview (Value false)
  end.

(** [getFilename]: [path.replace(/\\/g, '/').split('/')], then the last
    part, or [path] when that part is empty.  A string is a sequence of
    code units; the two separators are single units in every encoding of
    interest, so nothing here depends on the others. *)
Definition slash : ascii := "/"%char.
Definition backslash : ascii := "\"%char.

Fixpoint replace_backslashes (s : string) : string :=
  match s with
  | EmptyString => EmptyString
  | String c s' =>
      String (if Ascii.eqb c backslash then slash else c) (replace_backslashes s')
  end.

(** [s.split(sep)] for a one-character separator: never empty. *)
Fixpoint split (sep : ascii) (s : string) : list string :=
  match s with
  | EmptyString => [EmptyString]
  | String c s' =>
      if Ascii.eqb c sep then EmptyString :: split sep s'
      else match split sep s' with
           | [] => [String c EmptyString]
           | part :: parts => String c part :: parts
           end
  end.

(** [a || b] on strings: [a] unless it is [undefined] or empty. *)
Definition or_else (a : option string) (b : string) : string :=
  match a with
  | Some s => if truthy s then s else b
  | None => b
  end.

Definition getFilename (path : string) : string :=
  let parts := split slash (replace_backslashes path) in
  or_else (nth_error parts (length parts - 1)) path.

(* ------------------------------------------------------------------ *)
(** ** The rendered component as an event loop *)

(** What a suspended handler can be resumed with. *)
Inductive settlement : Type :=
| DialogFiles (r : outcome (option (list string)))
| DialogFolder (r : outcome (option string))
| FetchResponse (r : outcome bool)
| JsonBody (r : outcome (list ContextFilePreview)).

(** What can happen to a mounted picker: a click on one of its buttons, or
    the settlement of the promise the [i]-th suspended handler waits for. *)
Inductive event : Type :=
| ClickAddFiles
| ClickAddFolder
| ClickPreview
| ClickClearAll
| ClickRemove (path : string)
| Settle (i : nat) (s : settlement).

Fixpoint remove_nth {A : Type} (i : nat) (l : list A) : list A :=
  match l, i with
  | [], _ => []
  | _ :: l', O => l'
  | x :: l', S i' => x :: remove_nth i' l'
  end.

Definition drop_pending (i : nat) (w : world) : world :=
  mkWorld (arrays w) (selectedPaths w) (apiBaseUrl w) (previews w)
          (isLoadingPreview w) (remove_nth i (pending w)) (calls w).

(** Resume the [i]-th suspended handler with [s], when [s] is a settlement
    of the promise it waits for. *)
Definition resume (i : nat) (s : settlement) (w : world) : world :=
  match nth_error (pending w) i, s with
  | Some (AddFilesK sp), DialogFiles r =>
      exec (handleAddFiles_resume sp r) (drop_pending i w)
  | Some (AddFolderK sp), DialogFolder r =>
      exec (handleAddFolder_resume sp r) (drop_pending i w)
  | Some (PreviewFetchK fp), FetchResponse r =>
      exec (handlePreview_afterFetch fp r) (drop_pending i w)
  | Some (PreviewJsonK _), JsonBody r =>
      exec (handlePreview_afterJson r) (drop_pending i w)
  | _, _ => w
  end.

(** The JSX: the Preview and Clear All buttons are rendered only when
    [selectedPaths.length > 0], the Preview button is [disabled] while
    [isLoadingPreview], and there is one Remove button for each selected
    path.  A click on a button that is disabled or not rendered reaches no
    handler.  Handlers are those of the current render, so they close over
    the current [selectedPaths]. *)
Definition step (w : world) (e : event) : world :=
  match e with
  | ClickAddFiles => exec (handleAddFiles (selectedPaths w)) w
  | ClickAddFolder => exec (handleAddFolder (selectedPaths w)) w
  | ClickPreview =>
      if (0 <? length (paths w))%nat && negb (isLoadingPreview w)
      then exec (handlePreview (selectedPaths w)) w
      else w
  | ClickClearAll =>
      if (0 <? length (paths w))%nat then exec handleClearAll w else w
  | ClickRemove path =>
      if includes (paths w) path
      then exec (handleRemovePath (selectedPaths w) path) w
      else w
  | Settle i s => resume i s w
  end.

Definition run (w : world) (es : list event) : world := fold_left step es w.

(** The picker as first rendered with the given selection. *)
Definition mount (selected : list string) (url : string) : world :=
  mkWorld [selected] 0 url [] false [] [].

(** The preview requests in flight: handlers suspended inside
    [handlePreview]. *)
Definition is_preview_task (t : task) : bool :=
  match t with
  | PreviewFetchK _ | PreviewJsonK _ => true
  | AddFilesK _ | AddFolderK _ => false
  end.

Definition inflight_previews (w : world) : nat :=
  length (filter is_preview_task (pending w)).

(** The [Fetch] calls in the log. *)
Definition is_fetch (c : call) : bool :=
  match c with
  | Fetch _ _ _ => true
  | _ => false
  end.

Definition fetch_count (w : world) : nat := length (filter is_fetch (calls w)).

(** No preview entry for path [p]. *)
Definition no_preview_for (p : string) (ps : list ContextFilePreview) : Prop :=
  forall e, In e ps -> file_path e <> p.

(* ------------------------------------------------------------------ *)
(** ** The PathSet operations, as the controller performs them *)

(** Each operation is the handler of the current render run to its end:
    for the two dialogs, from the moment the dialog returns a value. *)
Module PathSet.

Definition addMany (w : world) (incoming : list string) : world :=
  exec (handleAddFiles_resume (selectedPaths w) (Resolved (Some incoming))) w.

Definition addOne (w : world) (candidate : string) : world :=
  exec (handleAddFolder_resume (selectedPaths w) (Resolved (Some candidate))) w.

Definition remove (w : world) (target : string) : world :=
  exec (handleRemovePath (selectedPaths w) target) w.

Definition clear (w : world) : world := exec handleClearAll w.

End PathSet.

(** What the loop of [handleAddFiles] leaves in [newPaths], as a function
    of what it found there. *)
Definition merge (newPaths selected : list string) : list string :=
  fold_left (fun acc path => if negb (includes acc path) then acc ++ [path] else acc)
            selected newPaths.

(** The loading flag counts the preview requests in flight. *)
Definition guard_inv (w : world) : Prop :=
  inflight_previews w = if isLoadingPreview w then 1 else 0.

(** How a preview attempt can end, and the settlements that make it end so:
    [fetch] rejects; it resolves with a response that is not [ok]; it
    resolves with an [ok] response whose [json()] rejects because the body
    is no JSON text; or [json()] resolves with entries of the declared
    shape.  (A body that parses to anything else is in [runtime_end].) *)
Inductive attempt_end : Type :=
| TransportError
| NonSuccessStatus
| UnparseableBody
| Success (data : list ContextFilePreview).

(** The attempt suspended at position [i] runs to its end.  A handler that
    suspends again goes to the back of [pending]. *)
Definition finish_attempt (i : nat) (a : attempt_end) (w : world) : world :=
  let last := length (pending w) - 1 in
  match a with
  | TransportError => run w [Settle i (FetchResponse Rejected)]
  | NonSuccessStatus => run w [Settle i (FetchResponse (Resolved false))]
  | UnparseableBody =>
      run w [Settle i (FetchResponse (Resolved true)); Settle last (JsonBody Rejected)]
  | Success data =>
      run w [Settle i (FetchResponse (Resolved true));
             Settle last (JsonBody (Resolved data))]
  end.

(** The event applies a preview response that has an entry for [p]. *)
Definition brings_preview_for (p : string) (e : event) : bool :=
  match e with
  | Settle _ (JsonBody (Resolved data)) =>
      existsb (fun entry => String.eqb (file_path entry) p) data
  | _ => false
  end.

(* ------------------------------------------------------------------ *)
(** ** The specification's words, to compare with the code *)

Definition is_separator (c : ascii) : bool :=
  Ascii.eqb c slash || Ascii.eqb c backslash.

Fixpoint has_separator (s : string) : bool :=
  match s with
  | EmptyString => false
  | String c s' => is_separator c || has_separator s'
  end.

(** The last path segment: what follows the last separator, or the whole
    string when it has none. *)
Fixpoint last_segment (s : string) : string :=
  match s with
  | EmptyString => EmptyString
  | String c s' =>
      if has_separator s' then last_segment s'
      else if is_separator c then s'
      else s
  end.

(** The new elements of a merge: those of [incoming], in order, that are
    neither in [existing] nor among the [earlier] elements of [incoming]. *)
Fixpoint appended (existing earlier incoming : list string) : list string :=
  match incoming with
  | [] => []
  | x :: rest =>
      if includes existing x || includes earlier x
      then appended existing (earlier ++ [x]) rest
      else x :: appended existing (earlier ++ [x]) rest
  end.

(* ------------------------------------------------------------------ *)
(** ** Further notions for the properties below *)

(** A world as [w], with one more call in its log. *)
Definition logged (c : call) (w : world) : world :=
  mkWorld (arrays w) (selectedPaths w) (apiBaseUrl w) (previews w)
          (isLoadingPreview w) (pending w) (calls w ++ [c]).

(** The store [h'] is the store [h] with arrays added behind it. *)
Definition store_extends (h h' : store) : Prop :=
  exists added, h' = h ++ added.

(** A call is no [fetch], or it is a [POST] to [url/read-context-files]
    with an empty question and at least one path. *)
Definition fetch_well_formed (url : string) (c : call) : bool :=
  match c with
  | Fetch u question file_paths =>
      String.eqb u (url ++ "/read-context-files")
      && String.eqb question ""
      && Nat.ltb 0 (length file_paths)
  | _ => true
  end.

(** The events of the two Add buttons and of their dialogs. *)
Definition is_add_event (e : event) : bool :=
  match e with
  | ClickAddFiles | ClickAddFolder => true
  | Settle _ (DialogFiles _) | Settle _ (DialogFolder _) => true
  | _ => false
  end.

(* ------------------------------------------------------------------ *)
(** ** The previews cell at run time *)

(** [useState<ContextFilePreview[]>] and [const data: ContextFilePreview[]]
    are annotations, erased before the code runs: [setPreviews(data)] stores
    whatever [response.json()] resolved with.  The worlds above hold the
    cell at its declared type; a [runtime V] world holds in it a value of
    any type [V], and the end of [handlePreview] is given on these worlds
    too. *)
Record runtime (V : Type) : Type := mkRuntime {
  rt_arrays : store;
  rt_selectedPaths : ref;
  rt_apiBaseUrl : string;
  rt_previews : V;
  rt_isLoadingPreview : bool;
  rt_pending : list task;
  rt_calls : list call
}.
Arguments mkRuntime {V}.
Arguments rt_arrays {V}.
Arguments rt_selectedPaths {V}.
Arguments rt_apiBaseUrl {V}.
Arguments rt_previews {V}.
Arguments rt_isLoadingPreview {V}.
Arguments rt_pending {V}.
Arguments rt_calls {V}.

Definition rt_paths {V : Type} (w : runtime V) : list string :=
  deref (rt_arrays w) (rt_selectedPaths w).

(** [setPreviews(data)] *)
Definition rt_setPreviews {V : Type} (data : V) (w : runtime V) : runtime V :=
  mkRuntime (rt_arrays w) (rt_selectedPaths w) (rt_apiBaseUrl w) data
            (rt_isLoadingPreview w) (rt_pending w) (rt_calls w).

(** [setIsLoadingPreview(b)] *)
Definition rt_setIsLoadingPreview {V : Type} (b : bool) (w : runtime V) : runtime V :=
  mkRuntime (rt_arrays w) (rt_selectedPaths w) (rt_apiBaseUrl w) (rt_previews w)
            b (rt_pending w) (rt_calls w).

Definition rt_console_error {V : Type} (msg : string) (w : runtime V) : runtime V :=
  mkRuntime (rt_arrays w) (rt_selectedPaths w) (rt_apiBaseUrl w) (rt_previews w)
            (rt_isLoadingPreview w) (rt_pending w) (rt_calls w ++ [ConsoleError msg]).

Definition rt_suspend {V : Type} (t : task) (w : runtime V) : runtime V :=
  mkRuntime (rt_arrays w) (rt_selectedPaths w) (rt_apiBaseUrl w) (rt_previews w)
            (rt_isLoadingPreview w) (rt_pending w ++ [t]) (rt_calls w).

Definition rt_drop_pending {V : Type} (i : nat) (w : runtime V) : runtime V :=
  mkRuntime (rt_arrays w) (rt_selectedPaths w) (rt_apiBaseUrl w) (rt_previews w)
            (rt_isLoadingPreview w) (remove_nth i (rt_pending w)) (rt_calls w).

(** [handlePreview], from the settlement of [fetch] up to
    [await response.json()] or to the end. *)
Definition rt_handlePreview_afterFetch {V : Type} (file_paths : list string)
    (r : outcome bool) (w : runtime V) : runtime V :=
  match r with
  | Resolved true => rt_suspend (PreviewJsonK file_paths) w
  | Resolved false => rt_setIsLoadingPreview false w
  | Rejected =>
      rt_setIsLoadingPreview false (rt_console_error "Failed to preview files:" w)
  end.

(** [handlePreview], from the settlement of [response.json()] on:
    [setPreviews(data)] with the value as it came, then the [finally]. *)
Definition rt_handlePreview_afterJson {V : Type} (r : outcome V)
    (w : runtime V) : runtime V :=
  match r with
  | Resolved data => rt_setIsLoadingPreview false (rt_setPreviews data w)
  | Rejected =>
      rt_setIsLoadingPreview false (rt_console_error "Failed to preview files:" w)
  end.

(** The settlements a preview attempt waits for. *)
Inductive rt_settlement (V : Type) : Type :=
| RtFetchResponse (r : outcome bool)
| RtJsonBody (r : outcome V).
Arguments RtFetchResponse {V} r.
Arguments RtJsonBody {V} r.

(** [resume], for the two continuations of [handlePreview]. *)
Definition rt_resume {V : Type} (i : nat) (s : rt_settlement V)
    (w : runtime V) : runtime V :=
  match nth_error (rt_pending w) i, s with
  | Some (PreviewFetchK fp), RtFetchResponse r =>
      rt_handlePreview_afterFetch fp r (rt_drop_pending i w)
  | Some (PreviewJsonK _), RtJsonBody r =>
      rt_handlePreview_afterJson r (rt_drop_pending i w)
  | _, _ => w
  end.

(** How a preview attempt can end at run time: [fetch] rejects; the
    response is not [ok]; the response is [ok] and [json()] rejects (the
    body is no JSON text); or [json()] resolves, with a value of whatever
    shape. *)
Inductive runtime_end (V : Type) : Type :=
| FetchRejected
| StatusNotOk
| BodyNotJson
| BodyParsed (data : V).
Arguments FetchRejected {V}.
Arguments StatusNotOk {V}.
Arguments BodyNotJson {V}.
Arguments BodyParsed {V} data.

(** [finish_attempt], at run time. *)
Definition rt_finish_attempt {V : Type} (i : nat) (a : runtime_end V)
    (w : runtime V) : runtime V :=
  let last := length (rt_pending w) - 1 in
  match a with
  | FetchRejected => rt_resume i (RtFetchResponse Rejected) w
  | StatusNotOk => rt_resume i (RtFetchResponse (Resolved false)) w
  | BodyNotJson =>
      rt_resume last (RtJsonBody Rejected)
                (rt_resume i (RtFetchResponse (Resolved true)) w)
  | BodyParsed data =>
      rt_resume last (RtJsonBody (Resolved data))
                (rt_resume i (RtFetchResponse (Resolved true)) w)
  end.

(** The values [response.json()] can resolve with.  Numbers are given as
    integers, as [text_length] is. *)
#[warnings="-register-all"] Inductive json : Type :=
| JNull
| JBool (b : bool)
| JNumber (n : Z)
| JString (s : string)
| JArray (items : list json)
| JObject (members : list (string * json)).

(** An entry and an array of entries of the declared shape, as values. *)
Definition entry_value (e : ContextFilePreview) : json :=
  JObject [("file_path", JString (file_path e));
           ("filename", JString (filename e));
           ("text_preview", JString (text_preview e));
           ("text_length", JNumber (text_length e))].

Definition previews_value (entries : list ContextFilePreview) : json :=
  JArray (map entry_value entries).

(** A world at its declared types, seen at run time. *)
Definition at_runtime (w : world) : runtime json :=
  mkRuntime (arrays w) (selectedPaths w) (apiBaseUrl w)
            (previews_value (previews w))
            (isLoadingPreview w) (pending w) (calls w).

Definition outcome_map {A B : Type} (f : A -> B) (r : outcome A) : outcome B :=
  match r with
  | Resolved a => Resolved (f a)
  | Rejected => Rejected
  end.

Definition runtime_end_of (a : attempt_end) : runtime_end json :=
  match a with
  | TransportError => FetchRejected
  | NonSuccessStatus => StatusNotOk
  | UnparseableBody => BodyNotJson
  | Success data => BodyParsed (previews_value data)
  end.

(** A settlement ends the attempt suspended as [t]: any settlement of
    [response.json()], and any settlement of [fetch] but an [ok]
    response. *)
Definition ends_attempt (t : task) (s : settlement) : bool :=
  match t, s with
  | PreviewFetchK _, FetchResponse (Resolved true) => false
  | PreviewFetchK _, FetchResponse _ => true
  | PreviewJsonK _, JsonBody _ => true
  | _, _ => false
  end.

(** The rejection of the promise the attempt suspended as [t] waits for. *)
Definition rejection_for (t : task) : settlement :=
  match t with
  | PreviewJsonK _ => JsonBody Rejected
  | _ => FetchResponse Rejected
  end.

(* ------------------------------------------------------------------ *)
(** ** Running a handler *)

(** Unfolds the monad and its primitives and reads the fields of the worlds
    built on the way. *)
Ltac run_handler :=
  cbv beta iota zeta delta
    [exec bind ret array_new array_read array_spread array_spread_with
     array_includes array_push array_filter array_length log suspend
     console_error onSelectionChange setPreviews setIsLoadingPreview
     get_apiBaseUrl set_arrays applyAction];
  cbn [arrays selectedPaths apiBaseUrl previews isLoadingPreview pending calls
       fst snd negb].

(* ------------------------------------------------------------------ *)
(** ** The store *)

Section Store.

Lemma deref_new (h : store) (a : list string) :
  deref (h ++ [a]) (length h) = a.
Proof.
  unfold deref. rewrite app_nth2 by lia.
  now rewrite Nat.sub_diag.
Qed.

Lemma deref_old (h : store) (a : list string) (r : ref) :
  r < length h -> deref (h ++ [a]) r = deref h r.
Proof. intros Hr. unfold deref. now apply app_nth1. Qed.

Lemma assign_new (h : store) (a b : list string) :
  assign (h ++ [a]) (length h) b = h ++ [b].
Proof.
  induction h as [|c h IH]; simpl; [reflexivity|].
  now rewrite IH.
Qed.

End Store.

(* ------------------------------------------------------------------ *)
(** ** Membership *)

Lemma includes_In (a : list string) (x : string) :
  includes a x = true <-> In x a.
Proof.
  unfold includes. rewrite existsb_exists. split.
  - intros [y [Hy Heq]]. apply String.eqb_eq in Heq. now subst.
  - intros Hx. exists x. split; [assumption|apply String.eqb_refl].
Qed.

Lemma includes_not_In (a : list string) (x : string) :
  includes a x = false <-> ~ In x a.
Proof.
  rewrite <- includes_In. destruct (includes a x); split; congruence.
Qed.

Lemma includes_app (a b : list string) (x : string) :
  includes (a ++ b) x = includes a x || includes b x.
Proof. unfold includes. apply existsb_app. Qed.

Lemma includes_single (x y : string) :
  includes [y] x = String.eqb x y.
Proof. unfold includes. simpl. apply orb_false_r. Qed.

Lemma filter_absent (p : string) (a : list string) :
  ~ In p a -> filter (fun q => negb (String.eqb q p)) a = a.
Proof.
  induction a as [|q a IH]; simpl; intros Hp; [reflexivity|].
  destruct (String.eqb_spec q p) as [->|Hne]; simpl.
  - exfalso. apply Hp. now left.
  - f_equal. apply IH. intros Hin. apply Hp. now right.
Qed.

(* ------------------------------------------------------------------ *)
(** ** The merge loop of [handleAddFiles] *)

Lemma merge_loop (selected : list string) :
  forall (h : store) (acc : list string) (w : world),
    arrays w = h ++ [acc] ->
    for_of selected (fun path =>
        present <- array_includes (length h) path ;;
        if negb present then array_push (length h) path else ret tt) w
    = (tt, set_arrays (h ++ [merge acc selected]) w).
Proof.
  induction selected as [|x selected IH]; intros h acc w Hw.
  - simpl. unfold ret, set_arrays. rewrite <- Hw. now destruct w.
  - cbn [for_of]. unfold bind at 1. unfold bind at 1.
    unfold array_includes, array_read, bind, ret at 1.
    rewrite Hw, deref_new.
    unfold merge. cbn [fold_left]. fold (merge (if negb (includes acc x) then acc ++ [x] else acc) selected).
    destruct (includes acc x); cbn [negb].
    + unfold ret at 1. now apply IH.
    + unfold array_push. rewrite Hw, deref_new, assign_new.
      rewrite (IH h (acc ++ [x])) by reflexivity.
      reflexivity.
Qed.

Lemma handleAddFiles_resume_run (sp : ref) (selected : list string) (w : world) :
  selected <> [] ->
  exec (handleAddFiles_resume sp (Resolved (Some selected))) w
  = mkWorld (arrays w ++ [merge (deref (arrays w) sp) selected])
            (length (arrays w)) (apiBaseUrl w) (previews w)
            (isLoadingPreview w) (pending w)
            (calls w ++ [OnSelectionChange (length (arrays w))]).
Proof.
  intros Hne. unfold exec, handleAddFiles_resume.
  destruct selected as [|x selected]; [congruence|].
  change (Nat.ltb 0 (length (x :: selected))) with true. cbv iota.
  unfold bind at 1. unfold array_spread, array_read, array_new, bind at 1.
  unfold bind at 1.
  rewrite (merge_loop (x :: selected) (arrays w) (deref (arrays w) sp)) by reflexivity.
  reflexivity.
Qed.

Lemma handleAddFiles_resume_empty (sp : ref) (w : world) :
  exec (handleAddFiles_resume sp (Resolved (Some []))) w = w.
Proof. reflexivity. Qed.

Lemma merge_appended (incoming : list string) :
  forall acc existing earlier,
    (forall y, includes acc y = includes existing y || includes earlier y) ->
    merge acc incoming = acc ++ appended existing earlier incoming.
Proof.
  induction incoming as [|x incoming IH]; intros acc existing earlier Hacc;
    unfold merge; cbn [fold_left appended].
  - now rewrite app_nil_r.
  - fold (merge (if negb (includes acc x) then acc ++ [x] else acc) incoming).
    rewrite <- Hacc. destruct (includes acc x) eqn:Hx; cbn [negb].
    + apply IH. intros y. rewrite includes_app, includes_single, orb_assoc, <- Hacc.
      destruct (String.eqb_spec y x) as [->|_]; [now rewrite Hx|now rewrite orb_false_r].
    + rewrite (IH (acc ++ [x]) existing (earlier ++ [x])).
      * now rewrite <- app_assoc.
      * intros y. now rewrite !includes_app, orb_assoc, <- Hacc.
Qed.

Lemma merge_NoDup (incoming : list string) :
  forall acc, NoDup acc -> NoDup (merge acc incoming).
Proof.
  induction incoming as [|x incoming IH]; intros acc Hacc; unfold merge; cbn [fold_left].
  - assumption.
  - apply IH. destruct (includes acc x) eqn:Hx; cbn [negb]; [assumption|].
    apply includes_not_In in Hx.
    apply NoDup_app; [assumption|repeat constructor; intros []|].
    intros y Hy [<-|[]]. contradiction.
Qed.

Lemma merge_In (incoming : list string) :
  forall acc y, In y (merge acc incoming) <-> In y acc \/ In y incoming.
Proof.
  induction incoming as [|x incoming IH]; intros acc y; unfold merge; cbn [fold_left].
  - simpl. tauto.
  - fold (merge (if negb (includes acc x) then acc ++ [x] else acc) incoming).
    rewrite IH. destruct (includes acc x) eqn:Hx; cbn [negb].
    + apply includes_In in Hx. simpl. split; [tauto|].
      intros [H|[<-|H]]; tauto.
    + rewrite in_app_iff. simpl. tauto.
Qed.

Lemma merge_all_present (incoming : list string) :
  forall acc, (forall y, In y incoming -> In y acc) -> merge acc incoming = acc.
Proof.
  induction incoming as [|x incoming IH]; intros acc Hin; unfold merge; cbn [fold_left].
  - reflexivity.
  - assert (Hx : includes acc x = true) by (apply includes_In, Hin; now left).
    rewrite Hx. cbn [negb]. apply IH. intros y Hy. apply Hin. now right.
Qed.

(* ------------------------------------------------------------------ *)
(** ** The PathSet operations *)

(** C1. For every world whose selection [S] has no duplicates and every
    dialog result [I], the selection after the file-dialog merge has no
    duplicates, has exactly the elements of [S] and of [I], starts with [S]
    in its order, and continues with the elements of [I], in order, that
    are neither in [S] nor earlier in [I]. *)
Theorem addMany_dedup_merge (w : world) (incoming : list string) :
  NoDup (paths w) ->
  let merged := paths (PathSet.addMany w incoming) in
  NoDup merged
  /\ (forall x, In x merged <-> In x (paths w) \/ In x incoming)
  /\ merged = paths w ++ appended (paths w) [] incoming.
Proof.
  intros HS merged.
  assert (Hm : merged = merge (paths w) incoming).
  { subst merged. unfold PathSet.addMany. destruct incoming as [|x incoming].
    - now rewrite handleAddFiles_resume_empty.
    - rewrite handleAddFiles_resume_run by discriminate.
      unfold paths. cbn [arrays selectedPaths]. apply deref_new. }
  rewrite Hm. split; [|split].
  - now apply merge_NoDup.
  - intros x. apply merge_In.
  - apply merge_appended. intros y. simpl. now rewrite orb_false_r.
Qed.

Lemma addMany_dedup_merge_witness :
  let w := mount ["a.txt"; "b.txt"] "http://localhost:5167" in
  let incoming := ["b.txt"; "c.txt"; "c.txt"; "a.txt"; "d.txt"] in
  NoDup (paths w)
  /\ paths (PathSet.addMany w incoming) = ["a.txt"; "b.txt"; "c.txt"; "d.txt"]
  /\ NoDup (paths (PathSet.addMany w incoming)).
Proof.
  assert (H : NoDup (paths (mount ["a.txt"; "b.txt"] "http://localhost:5167"))).
  { unfold paths, mount, deref. simpl.
    repeat constructor; simpl; intuition discriminate. }
  split; [exact H|]. split; [reflexivity|].
  exact (proj1 (addMany_dedup_merge _ ["b.txt"; "c.txt"; "c.txt"; "a.txt"; "d.txt"] H)).
Defined.

Lemma addOne_present (w : world) (p : string) :
  In p (paths w) -> PathSet.addOne w p = w.
Proof.
  intros Hp. unfold PathSet.addOne, handleAddFolder_resume.
  destruct (truthy p); [|reflexivity].
  run_handler. fold (paths w).
  apply includes_In in Hp. now rewrite Hp.
Qed.

Lemma addOne_absent (w : world) (p : string) :
  ~ In p (paths w) ->
  paths (PathSet.addOne w p) = if truthy p then paths w ++ [p] else paths w.
Proof.
  intros Hp. unfold PathSet.addOne, handleAddFolder_resume.
  destruct (truthy p); [|reflexivity].
  run_handler. fold (paths w).
  apply includes_not_In in Hp. rewrite Hp.
  run_handler. unfold paths at 1. run_handler.
  fold (paths w). apply deref_new.
Qed.

Lemma remove_paths (w : world) (p : string) :
  paths (PathSet.remove w p) = filter (fun q => negb (String.eqb q p)) (paths w).
Proof.
  unfold PathSet.remove, handleRemovePath, paths at 1.
  run_handler. fold (paths w). apply deref_new.
Qed.

(** C6. Adding, through the folder dialog, a path that is already selected
    leaves the selection as it was (and the rest of the world with it). *)
Theorem addOne_idempotent (w : world) (p : string) :
  In p (paths w) ->
  paths (PathSet.addOne w p) = paths w /\ PathSet.addOne w p = w.
Proof.
  intros Hp. rewrite (addOne_present w p Hp). now split.
Qed.

Lemma addOne_idempotent_witness :
  let w := mount ["a.txt"; "b.txt"] "http://localhost:5167" in
  In "a.txt" (paths w) /\ paths (PathSet.addOne w "a.txt") = ["a.txt"; "b.txt"].
Proof.
  assert (H : In "a.txt" (paths (mount ["a.txt"; "b.txt"] "http://localhost:5167")))
    by (simpl; now left).
  split; [exact H|].
  exact (proj1 (addOne_idempotent _ "a.txt" H)).
Defined.

(** C7. For a path that is not selected, removing it after adding it gives
    back the selection; and removing a path that is not selected leaves the
    selection as it was. *)
Theorem remove_addOne_inverse (w : world) (p : string) :
  ~ In p (paths w) ->
  paths (PathSet.remove (PathSet.addOne w p) p) = paths w
  /\ paths (PathSet.remove w p) = paths w.
Proof.
  intros Hp. rewrite !remove_paths, (addOne_absent w p Hp).
  split; [|now apply filter_absent].
  destruct (truthy p); [|now apply filter_absent].
  rewrite filter_app, (filter_absent p (paths w) Hp). simpl.
  rewrite String.eqb_refl. simpl. apply app_nil_r.
Qed.

Lemma remove_addOne_inverse_witness :
  let w := mount ["a.txt"; "b.txt"] "http://localhost:5167" in
  ~ In "c.txt" (paths w)
  /\ paths (PathSet.addOne w "c.txt") = ["a.txt"; "b.txt"; "c.txt"]
  /\ paths (PathSet.remove (PathSet.addOne w "c.txt") "c.txt") = ["a.txt"; "b.txt"].
Proof.
  assert (H : ~ In "c.txt" (paths (mount ["a.txt"; "b.txt"] "http://localhost:5167")))
    by (simpl; intuition discriminate).
  split; [exact H|]. split; [reflexivity|].
  exact (proj1 (remove_addOne_inverse _ "c.txt" H)).
Defined.

(** C8. Whatever the world was, after Clear All the selection is the empty
    array and there are no previews. *)
Theorem clear_resets_fully (w : world) :
  paths (PathSet.clear w) = [] /\ previews (PathSet.clear w) = [].
Proof.
  unfold PathSet.clear, handleClearAll, paths. run_handler.
  split; [apply deref_new|reflexivity].
Qed.

(** C10. When the file dialog returns a non-empty list of paths that are all
    selected already, [onSelectionChange] is still called, once, with an
    array that was not in the store before and that holds the same elements
    as [selectedPaths]; when the folder dialog returns a path that is
    selected already, nothing is called at all. *)
Theorem add_notification_asymmetry (w : world) (incoming : list string) (p : string) :
  wf w = true ->
  incoming <> [] ->
  (forall x, In x incoming -> In x (paths w)) ->
  In p (paths w) ->
  let w' := PathSet.addMany w incoming in
  (calls w' = calls w ++ [OnSelectionChange (selectedPaths w')]
   /\ length (arrays w) <= selectedPaths w'
   /\ selectedPaths w' <> selectedPaths w
   /\ paths w' = paths w
   /\ deref (arrays w') (selectedPaths w) = paths w)
  /\ calls (PathSet.addOne w p) = calls w.
Proof.
  intros Hwf Hne Hall Hp w'.
  unfold wf in Hwf. apply andb_prop in Hwf. destruct Hwf as [Hsp _].
  apply Nat.ltb_lt in Hsp.
  split; [|now rewrite addOne_present].
  subst w'. unfold PathSet.addMany.
  rewrite handleAddFiles_resume_run by assumption.
  fold (paths w). rewrite (merge_all_present incoming (paths w) Hall).
  unfold paths at 3. cbn [arrays selectedPaths calls].
  repeat split.
  - lia.
  - lia.
  - apply deref_new.
  - now apply deref_old.
Qed.

Lemma add_notification_asymmetry_witness :
  let w := mount ["a.txt"; "b.txt"] "http://localhost:5167" in
  calls (PathSet.addMany w ["b.txt"; "a.txt"]) = [OnSelectionChange 1]
  /\ calls (PathSet.addOne w "b.txt") = [].
Proof.
  pose (w := mount ["a.txt"; "b.txt"] "http://localhost:5167").
  assert (Hwf : wf w = true) by reflexivity.
  assert (Hne : ["b.txt"; "a.txt"] <> []) by discriminate.
  assert (Hall : forall x, In x ["b.txt"; "a.txt"] -> In x (paths w))
    by (simpl; intuition).
  assert (Hp : In "b.txt" (paths w)) by (simpl; intuition).
  destruct (add_notification_asymmetry w ["b.txt"; "a.txt"] "b.txt" Hwf Hne Hall Hp)
    as [[Hcalls _] Hone].
  split; [exact Hcalls|exact Hone].
Defined.

(* ------------------------------------------------------------------ *)
(** ** What the handlers leave alone *)

Lemma handleAddFiles_resume_frame (sp : ref) (r : outcome (option (list string)))
    (w : world) :
  let w' := exec (handleAddFiles_resume sp r) w in
  previews w' = previews w
  /\ isLoadingPreview w' = isLoadingPreview w
  /\ pending w' = pending w
  /\ filter is_fetch (calls w') = filter is_fetch (calls w).
Proof.
  destruct r as [[[|x selected]|]|]; cbn zeta.
  - now rewrite handleAddFiles_resume_empty.
  - rewrite handleAddFiles_resume_run by discriminate.
    cbn [previews isLoadingPreview pending calls].
    rewrite filter_app. simpl. now rewrite app_nil_r.
  - repeat split.
  - unfold handleAddFiles_resume. run_handler.
    rewrite filter_app. simpl. now rewrite app_nil_r.
Qed.

Lemma handleAddFolder_resume_frame (sp : ref) (r : outcome (option string))
    (w : world) :
  let w' := exec (handleAddFolder_resume sp r) w in
  previews w' = previews w
  /\ isLoadingPreview w' = isLoadingPreview w
  /\ pending w' = pending w
  /\ filter is_fetch (calls w') = filter is_fetch (calls w).
Proof.
  destruct r as [[selected|]|]; cbn zeta; unfold handleAddFolder_resume.
  - destruct (truthy selected); [|repeat split].
    run_handler. destruct (includes (deref (arrays w) sp) selected); run_handler.
    + repeat split.
    + rewrite filter_app. simpl. now rewrite app_nil_r.
  - repeat split.
  - run_handler. rewrite filter_app. simpl. now rewrite app_nil_r.
Qed.

Lemma handlePreview_run (w : world) :
  paths w <> [] ->
  exec (handlePreview (selectedPaths w)) w
  = mkWorld (arrays w) (selectedPaths w) (apiBaseUrl w) (previews w) true
            (pending w ++ [PreviewFetchK (paths w)])
            (calls w ++ [Fetch (apiBaseUrl w ++ "/read-context-files") "" (paths w)]).
Proof.
  intros Hne. unfold handlePreview. run_handler. fold (paths w).
  destruct (paths w) as [|x l] eqn:E; [congruence|].
  cbn [length Nat.eqb]. run_handler. fold (paths w). now rewrite E.
Qed.

Lemma handlePreview_empty (sp : ref) (w : world) :
  deref (arrays w) sp = [] -> exec (handlePreview sp) w = w.
Proof.
  intros He. unfold handlePreview. run_handler. now rewrite He.
Qed.

Lemma remove_nth_length {A : Type} (l : list A) :
  forall i t, nth_error l i = Some t -> S (length (remove_nth i l)) = length l.
Proof.
  induction l as [|x l IH]; intros [|i] t Hi; simpl in *; try discriminate.
  - reflexivity.
  - f_equal. now apply (IH i t).
Qed.

Lemma remove_nth_filter {A : Type} (f : A -> bool) (l : list A) :
  forall i t, nth_error l i = Some t ->
    length (filter f (remove_nth i l)) + (if f t then 1 else 0)
    = length (filter f l).
Proof.
  induction l as [|x l IH]; intros [|i] t Hi; simpl in *; try discriminate.
  - injection Hi as ->. destruct (f t); simpl; lia.
  - specialize (IH i t Hi). destruct (f x); simpl; lia.
Qed.

Lemma remove_nth_last {A : Type} (l : list A) (t : A) :
  remove_nth (length l) (l ++ [t]) = l.
Proof.
  induction l as [|x l IH]; simpl; [reflexivity|]. now rewrite IH.
Qed.

Lemma nth_error_last {A : Type} (l : list A) (t : A) :
  nth_error (l ++ [t]) (length l) = Some t.
Proof.
  rewrite nth_error_app2 by lia. now rewrite Nat.sub_diag.
Qed.

(* ------------------------------------------------------------------ *)
(** ** The loading guard *)

Lemma inflight_suspend_dialog (l : list task) (t : task) :
  is_preview_task t = false ->
  length (filter is_preview_task (l ++ [t])) = length (filter is_preview_task l).
Proof.
  intros Ht. rewrite filter_app. simpl. rewrite Ht. now rewrite app_nil_r.
Qed.

Lemma inflight_suspend_preview (l : list task) (t : task) :
  is_preview_task t = true ->
  length (filter is_preview_task (l ++ [t])) = S (length (filter is_preview_task l)).
Proof.
  intros Ht. rewrite filter_app, length_app. simpl. rewrite Ht. simpl. lia.
Qed.

Lemma guard_inv_mount (selected : list string) (url : string) :
  guard_inv (mount selected url).
Proof. reflexivity. Qed.

Lemma guard_inv_resume (w : world) (i : nat) (s : settlement) :
  guard_inv w -> guard_inv (resume i s w).
Proof.
  unfold guard_inv, inflight_previews, resume. intros Hinv.
  destruct (nth_error (pending w) i) as [t|] eqn:Hi; [|assumption].
  pose proof (remove_nth_filter is_preview_task (pending w) i t Hi) as Hcount.
  destruct t as [sp|sp|fp|fp]; destruct s as [r|r|r|r]; try assumption;
    cbn [is_preview_task] in Hcount.
  - destruct (handleAddFiles_resume_frame sp r (drop_pending i w)) as (_ & -> & -> & _).
    cbn [drop_pending pending isLoadingPreview]. lia.
  - destruct (handleAddFolder_resume_frame sp r (drop_pending i w)) as (_ & -> & -> & _).
    cbn [drop_pending pending isLoadingPreview]. lia.
  - destruct (isLoadingPreview w) eqn:Hl; [|exfalso; lia].
    destruct r as [[|]|]; unfold handlePreview_afterFetch, drop_pending; run_handler.
    + rewrite inflight_suspend_preview, Hl by reflexivity. lia.
    + lia.
    + lia.
  - destruct (isLoadingPreview w) eqn:Hl; [|exfalso; lia].
    destruct r as [data|]; unfold handlePreview_afterJson, drop_pending; run_handler; lia.
Qed.

Lemma guard_inv_step (w : world) (e : event) :
  guard_inv w -> guard_inv (step w e).
Proof.
  intros Hinv. destruct e as [| | | |path|i s]; cbn [step].
  - unfold guard_inv, inflight_previews, handleAddFiles in *. run_handler.
    now rewrite inflight_suspend_dialog.
  - unfold guard_inv, inflight_previews, handleAddFolder in *. run_handler.
    now rewrite inflight_suspend_dialog.
  - destruct (paths w) as [|x l] eqn:Hp; [assumption|].
    destruct (isLoadingPreview w) eqn:Hl; [assumption|]. cbn [length Nat.ltb Nat.leb andb negb].
    rewrite handlePreview_run by (rewrite Hp; discriminate).
    unfold guard_inv, inflight_previews in *. rewrite Hl in Hinv. cbn [pending isLoadingPreview].
    rewrite inflight_suspend_preview by reflexivity. now rewrite Hinv.
  - destruct (0 <? length (paths w))%nat; [|assumption].
    unfold guard_inv, inflight_previews, handleClearAll in *. now run_handler.
  - destruct (includes (paths w) path); [|assumption].
    unfold guard_inv, inflight_previews, handleRemovePath in *. now run_handler.
  - now apply guard_inv_resume.
Qed.

Lemma guard_inv_run (es : list event) :
  forall w, guard_inv w -> guard_inv (run w es).
Proof.
  induction es as [|e es IH]; intros w Hinv; [assumption|].
  apply IH. now apply guard_inv_step.
Qed.

Lemma click_preview_while_loading (w : world) :
  isLoadingPreview w = true -> step w ClickPreview = w.
Proof.
  intros Hl. cbn [step]. rewrite Hl. cbn [negb]. now rewrite andb_false_r.
Qed.

Lemma click_preview_when_idle (w : world) :
  isLoadingPreview w = false -> paths w <> [] ->
  step w ClickPreview = exec (handlePreview (selectedPaths w)) w.
Proof.
  intros Hl Hp. cbn [step]. rewrite Hl.
  destruct (paths w); [congruence|reflexivity].
Qed.

(** C3. In every world a mounted picker can reach, the preview requests in
    flight are at most one, and there is one exactly when the loading flag is
    set; while it is set, a click on Preview changes nothing in the world
    and sends nothing; once it is cleared, a click with a non-empty
    selection sends one request and sets it again. *)
Theorem preview_guard (selected : list string) (url : string) (es : list event) :
  let w := run (mount selected url) es in
  inflight_previews w <= 1
  /\ (isLoadingPreview w = true <-> inflight_previews w = 1)
  /\ (isLoadingPreview w = true ->
      step w ClickPreview = w
      /\ fetch_count (step w ClickPreview) = fetch_count w)
  /\ (isLoadingPreview w = false -> paths w <> [] ->
      fetch_count (step w ClickPreview) = S (fetch_count w)
      /\ isLoadingPreview (step w ClickPreview) = true
      /\ inflight_previews (step w ClickPreview) = 1).
Proof.
  intros w.
  assert (Hinv : guard_inv w) by (apply guard_inv_run, guard_inv_mount).
  unfold guard_inv in Hinv. split; [|split; [|split]].
  - rewrite Hinv. destruct (isLoadingPreview w); lia.
  - rewrite Hinv. destruct (isLoadingPreview w); split; congruence.
  - intros Hl. rewrite (click_preview_while_loading w Hl). now split.
  - intros Hl Hp.
    rewrite (click_preview_when_idle w Hl Hp), (handlePreview_run w Hp).
    unfold fetch_count, inflight_previews. cbn [calls isLoadingPreview pending].
    rewrite inflight_suspend_preview by reflexivity.
    fold (inflight_previews w). rewrite Hinv, Hl.
    rewrite filter_app, length_app. simpl. repeat split. lia.
Qed.

Lemma preview_guard_witness :
  let w := run (mount ["x.py"] "http://localhost:5167") [ClickPreview] in
  isLoadingPreview w = true
  /\ step w ClickPreview = w
  /\ fetch_count (run w [ClickPreview; ClickPreview]) = 1.
Proof.
  assert (Hl : isLoadingPreview
                 (run (mount ["x.py"] "http://localhost:5167") [ClickPreview]) = true)
    by reflexivity.
  destruct (preview_guard ["x.py"] "http://localhost:5167" [ClickPreview])
    as (_ & _ & Hguard & _).
  destruct (Hguard Hl) as [Hsame _].
  split; [exact Hl|]. split; [exact Hsame|reflexivity].
Defined.

(* ------------------------------------------------------------------ *)
(** ** Preview attempts *)

(** C5. With an empty selection, [handlePreview] returns at once: the world
    after it is the world before it, so nothing is fetched and the
    selection, the previews and the loading flag are as they were.  The
    same holds of a click on Preview. *)
Theorem preview_empty_guard (w : world) :
  paths w = [] ->
  exec (handlePreview (selectedPaths w)) w = w
  /\ fetch_count (exec (handlePreview (selectedPaths w)) w) = fetch_count w
  /\ step w ClickPreview = w.
Proof.
  intros He. rewrite (handlePreview_empty (selectedPaths w) w He).
  repeat split. cbn [step]. now rewrite He.
Qed.

Lemma preview_empty_guard_witness :
  let w := mount [] "http://localhost:5167" in
  paths w = [] /\ exec (handlePreview (selectedPaths w)) w = w.
Proof.
  assert (He : paths (mount [] "http://localhost:5167") = []) by reflexivity.
  split; [exact He|].
  exact (proj1 (preview_empty_guard _ He)).
Defined.

Lemma resume_fetch_ok (w : world) (i : nat) (fp : list string) :
  nth_error (pending w) i = Some (PreviewFetchK fp) ->
  resume i (FetchResponse (Resolved true)) w
  = mkWorld (arrays w) (selectedPaths w) (apiBaseUrl w) (previews w)
            (isLoadingPreview w)
            (remove_nth i (pending w) ++ [PreviewJsonK fp]) (calls w).
Proof.
  intros Hi. unfold resume. rewrite Hi. reflexivity.
Qed.

Lemma resume_json_last (w : world) (i : nat) (fp : list string)
    (r : outcome (list ContextFilePreview)) :
  nth_error (pending w) i = Some (PreviewFetchK fp) ->
  resume (length (pending w) - 1) (JsonBody r)
         (resume i (FetchResponse (Resolved true)) w)
  = exec (handlePreview_afterJson r)
         (mkWorld (arrays w) (selectedPaths w) (apiBaseUrl w) (previews w)
                  (isLoadingPreview w) (remove_nth i (pending w)) (calls w)).
Proof.
  intros Hi. rewrite (resume_fetch_ok w i fp Hi).
  pose proof (remove_nth_length (pending w) i _ Hi) as Hlen.
  replace (length (pending w) - 1) with (length (remove_nth i (pending w))) by lia.
  unfold resume. cbn [pending]. rewrite nth_error_last.
  unfold drop_pending. cbn [arrays selectedPaths apiBaseUrl previews isLoadingPreview
                            pending calls].
  f_equal. f_equal. clear.
  induction (remove_nth i (pending w)) as [|t l IH]; simpl; [reflexivity|].
  now rewrite IH.
Qed.

(** The ends of an attempt in the event loop, where a body that parses has
    the declared shape: the three failures leave the previews as they were,
    entries received replace them, and in each case the store and
    [selectedPaths] are as they were and the loading flag is cleared. *)
Theorem preview_attempt_end (w : world) (i : nat) (fp : list string) (a : attempt_end) :
  nth_error (pending w) i = Some (PreviewFetchK fp) ->
  let w' := finish_attempt i a w in
  isLoadingPreview w' = false
  /\ arrays w' = arrays w
  /\ selectedPaths w' = selectedPaths w
  /\ paths w' = paths w
  /\ previews w' = match a with
                   | Success data => data
                   | TransportError | NonSuccessStatus | UnparseableBody => previews w
                   end.
Proof.
  intros Hi w'. subst w'. unfold paths.
  destruct a as [| | |data]; unfold finish_attempt, run; cbn [fold_left step].
  - unfold resume. rewrite Hi. unfold handlePreview_afterFetch, drop_pending.
    run_handler. repeat split.
  - unfold resume. rewrite Hi. unfold handlePreview_afterFetch, drop_pending.
    run_handler. repeat split.
  - rewrite (resume_json_last w i fp Rejected Hi).
    unfold handlePreview_afterJson. run_handler. repeat split.
  - rewrite (resume_json_last w i fp (Resolved data) Hi).
    unfold handlePreview_afterJson. run_handler. repeat split.
Qed.

Lemma preview_attempt_end_witness :
  let entry := mkPreview "x.py" "x.py" "..." 120 in
  let w := run (mount ["x.py"] "http://localhost:5167")
               [ClickPreview; Settle 0 (FetchResponse (Resolved true));
                Settle 0 (JsonBody (Resolved [entry])); ClickPreview] in
  nth_error (pending w) 0 = Some (PreviewFetchK ["x.py"])
  /\ isLoadingPreview w = true
  /\ isLoadingPreview (finish_attempt 0 NonSuccessStatus w) = false
  /\ previews (finish_attempt 0 NonSuccessStatus w) = [entry].
Proof.
  intros entry w.
  assert (Hi : nth_error (pending w) 0 = Some (PreviewFetchK ["x.py"]))
    by (vm_compute; reflexivity).
  assert (Hw : previews w = [entry]) by (vm_compute; reflexivity).
  destruct (preview_attempt_end w 0 ["x.py"] NonSuccessStatus Hi)
    as (Hl & _ & _ & _ & Hp).
  split; [exact Hi|]. split; [vm_compute; reflexivity|].
  split; [exact Hl|]. rewrite <- Hw. exact Hp.
Defined.

(* ------------------------------------------------------------------ *)
(** ** Preview attempts at run time *)

(** The event loop is the run-time behaviour on bodies of the declared
    shape. *)
Lemma at_runtime_afterFetch (fp : list string) (r : outcome bool) (w : world) :
  rt_handlePreview_afterFetch fp r (at_runtime w)
  = at_runtime (exec (handlePreview_afterFetch fp r) w).
Proof. destruct r as [[|]|]; reflexivity. Qed.

Lemma at_runtime_afterJson (r : outcome (list ContextFilePreview)) (w : world) :
  rt_handlePreview_afterJson (outcome_map previews_value r) (at_runtime w)
  = at_runtime (exec (handlePreview_afterJson r) w).
Proof. destruct r as [data|]; reflexivity. Qed.

Lemma at_runtime_drop_pending (i : nat) (w : world) :
  rt_drop_pending i (at_runtime w) = at_runtime (drop_pending i w).
Proof. reflexivity. Qed.

Lemma at_runtime_resume_fetch (i : nat) (r : outcome bool) (w : world) :
  rt_resume i (RtFetchResponse r) (at_runtime w)
  = at_runtime (resume i (FetchResponse r) w).
Proof.
  unfold rt_resume, resume. cbn [at_runtime rt_pending].
  destruct (nth_error (pending w) i) as [[sp|sp|fp|fp]|]; try reflexivity.
  rewrite at_runtime_drop_pending. apply at_runtime_afterFetch.
Qed.

Lemma at_runtime_resume_json (i : nat) (r : outcome (list ContextFilePreview))
    (w : world) :
  rt_resume i (RtJsonBody (outcome_map previews_value r)) (at_runtime w)
  = at_runtime (resume i (JsonBody r) w).
Proof.
  unfold rt_resume, resume. cbn [at_runtime rt_pending].
  destruct (nth_error (pending w) i) as [[sp|sp|fp|fp]|]; try reflexivity.
  rewrite at_runtime_drop_pending. apply at_runtime_afterJson.
Qed.

Lemma at_runtime_finish_attempt (i : nat) (a : attempt_end) (w : world) :
  rt_finish_attempt i (runtime_end_of a) (at_runtime w)
  = at_runtime (finish_attempt i a w).
Proof.
  destruct a as [| | |data]; unfold rt_finish_attempt, finish_attempt, run;
    cbn [runtime_end_of fold_left step at_runtime rt_pending].
  - apply at_runtime_resume_fetch.
  - apply at_runtime_resume_fetch.
  - rewrite at_runtime_resume_fetch.
    apply (at_runtime_resume_json _ Rejected).
  - rewrite at_runtime_resume_fetch.
    apply (at_runtime_resume_json _ (Resolved data)).
Qed.

Lemma rt_resume_fetch_ok {V : Type} (w : runtime V) (i : nat) (fp : list string) :
  nth_error (rt_pending w) i = Some (PreviewFetchK fp) ->
  rt_resume i (RtFetchResponse (Resolved true)) w
  = mkRuntime (rt_arrays w) (rt_selectedPaths w) (rt_apiBaseUrl w) (rt_previews w)
              (rt_isLoadingPreview w)
              (remove_nth i (rt_pending w) ++ [PreviewJsonK fp]) (rt_calls w).
Proof.
  intros Hi. unfold rt_resume. rewrite Hi. reflexivity.
Qed.

Lemma rt_resume_json_last {V : Type} (w : runtime V) (i : nat) (fp : list string)
    (r : outcome V) :
  nth_error (rt_pending w) i = Some (PreviewFetchK fp) ->
  rt_resume (length (rt_pending w) - 1) (RtJsonBody r)
            (rt_resume i (RtFetchResponse (Resolved true)) w)
  = rt_handlePreview_afterJson r
      (mkRuntime (rt_arrays w) (rt_selectedPaths w) (rt_apiBaseUrl w) (rt_previews w)
                 (rt_isLoadingPreview w) (remove_nth i (rt_pending w)) (rt_calls w)).
Proof.
  intros Hi. rewrite (rt_resume_fetch_ok w i fp Hi).
  pose proof (remove_nth_length (rt_pending w) i _ Hi) as Hlen.
  replace (length (rt_pending w) - 1) with (length (remove_nth i (rt_pending w)))
    by lia.
  unfold rt_resume. cbn [rt_pending]. rewrite nth_error_last.
  unfold rt_drop_pending.
  cbn [rt_arrays rt_selectedPaths rt_apiBaseUrl rt_previews rt_isLoadingPreview
       rt_pending rt_calls].
  now rewrite remove_nth_last.
Qed.

(** C4, as the code has it.  Whatever the previews cell holds, a preview
    attempt that ends in a transport error, in a response that is not [ok],
    or in a body that is no JSON leaves the cell as it was; a body that
    parses is stored as it came, of whatever shape; and however the attempt
    ends, the store, [selectedPaths] and so the selection are as they were
    and the loading flag is cleared. *)
Theorem preview_attempt_end_runtime (V : Type) (w : runtime V) (i : nat)
    (fp : list string) (a : runtime_end V) :
  nth_error (rt_pending w) i = Some (PreviewFetchK fp) ->
  let w' := rt_finish_attempt i a w in
  rt_isLoadingPreview w' = false
  /\ rt_arrays w' = rt_arrays w
  /\ rt_selectedPaths w' = rt_selectedPaths w
  /\ rt_paths w' = rt_paths w
  /\ rt_previews w' = match a with
                      | BodyParsed data => data
                      | FetchRejected | StatusNotOk | BodyNotJson => rt_previews w
                      end.
Proof.
  intros Hi w'. subst w'. unfold rt_paths.
  destruct a as [| | |data]; unfold rt_finish_attempt.
  - unfold rt_resume. rewrite Hi. repeat split.
  - unfold rt_resume. rewrite Hi. repeat split.
  - rewrite (rt_resume_json_last w i fp Rejected Hi). repeat split.
  - rewrite (rt_resume_json_last w i fp (Resolved data) Hi). repeat split.
Qed.

Lemma preview_attempt_end_runtime_witness :
  let entry := mkPreview "x.py" "x.py" "..." 120 in
  let w := at_runtime
             (run (mount ["x.py"] "http://localhost:5167")
                  [ClickPreview; Settle 0 (FetchResponse (Resolved true));
                   Settle 0 (JsonBody (Resolved [entry])); ClickPreview]) in
  nth_error (rt_pending w) 0 = Some (PreviewFetchK ["x.py"])
  /\ rt_isLoadingPreview w = true
  /\ rt_isLoadingPreview (rt_finish_attempt 0 BodyNotJson w) = false
  /\ rt_previews (rt_finish_attempt 0 BodyNotJson w) = previews_value [entry].
Proof.
  intros entry w.
  assert (Hi : nth_error (rt_pending w) 0 = Some (PreviewFetchK ["x.py"]))
    by (vm_compute; reflexivity).
  assert (Hw : rt_previews w = previews_value [entry]) by (vm_compute; reflexivity).
  destruct (preview_attempt_end_runtime json w 0 ["x.py"] BodyNotJson Hi)
    as (Hl & _ & _ & _ & Hp).
  split; [exact Hi|]. split; [vm_compute; reflexivity|].
  split; [exact Hl|]. rewrite <- Hw. exact Hp.
Defined.

(** C4, as the claim has it, fails on a malformed payload: with the entry
    for ["x.py"] shown and a second attempt in flight, the endpoint answers
    with a success status and the body [{"detail": "..."}], which is no
    array of entries; the attempt ends, and the cell holds that object, not
    the previews held before. *)
Lemma malformed_payload_replaces_previews :
  let entry := mkPreview "x.py" "x.py" "..." 120 in
  let w := at_runtime
             (run (mount ["x.py"] "http://localhost:5167")
                  [ClickPreview; Settle 0 (FetchResponse (Resolved true));
                   Settle 0 (JsonBody (Resolved [entry])); ClickPreview]) in
  let body := JObject [("detail", JString "Internal Server Error")] in
  let w' := rt_finish_attempt 0 (BodyParsed body) w in
  nth_error (rt_pending w) 0 = Some (PreviewFetchK ["x.py"])
  /\ rt_previews w = previews_value [entry]
  /\ (forall entries, body <> previews_value entries)
  /\ rt_previews w' = body
  /\ rt_previews w' <> rt_previews w
  /\ rt_isLoadingPreview w' = false.
Proof.
  intros entry w body w'.
  assert (Hw : rt_previews w = previews_value [entry]) by (vm_compute; reflexivity).
  assert (Hw' : rt_previews w' = body) by (vm_compute; reflexivity).
  split; [vm_compute; reflexivity|]. split; [exact Hw|].
  split; [intros entries; discriminate|]. split; [exact Hw'|].
  split; [rewrite Hw, Hw'; discriminate|vm_compute; reflexivity].
Qed.

(* ------------------------------------------------------------------ *)
(** ** Previews under removal *)

Lemma no_preview_for_filter (p q : string) (ps : list ContextFilePreview) :
  no_preview_for p ps ->
  no_preview_for p (filter (fun e => negb (String.eqb (file_path e) q)) ps).
Proof.
  intros Hps e He. apply filter_In in He. now apply Hps.
Qed.

Lemma no_preview_for_removed (p : string) (ps : list ContextFilePreview) :
  no_preview_for p (filter (fun e => negb (String.eqb (file_path e) p)) ps).
Proof.
  intros e He Heq. apply filter_In in He. destruct He as [_ He].
  rewrite Heq, String.eqb_refl in He. discriminate.
Qed.

Lemma no_preview_for_data (p : string) (data : list ContextFilePreview) :
  existsb (fun entry => String.eqb (file_path entry) p) data = false ->
  no_preview_for p data.
Proof.
  intros Hex e He Heq.
  assert (Ht : existsb (fun entry => String.eqb (file_path entry) p) data = true).
  { apply existsb_exists. exists e. split; [assumption|]. now apply String.eqb_eq. }
  congruence.
Qed.

Lemma remove_previews (w : world) (p : string) :
  previews (PathSet.remove w p)
  = filter (fun e => negb (String.eqb (file_path e) p)) (previews w).
Proof. reflexivity. Qed.

Lemma no_preview_for_step (p : string) (w : world) (e : event) :
  brings_preview_for p e = false ->
  no_preview_for p (previews w) ->
  no_preview_for p (previews (step w e)).
Proof.
  intros Hbr Hw. destruct e as [| | | |path|i s]; cbn [step].
  - exact Hw.
  - exact Hw.
  - destruct (paths w) as [|x l] eqn:Hp; [exact Hw|].
    destruct (isLoadingPreview w); [exact Hw|]. cbn [length Nat.ltb Nat.leb andb negb].
    rewrite handlePreview_run by (rewrite Hp; discriminate). exact Hw.
  - destruct (0 <? length (paths w))%nat; [|exact Hw].
    intros e [].
  - destruct (includes (paths w) path); [|exact Hw].
    fold (PathSet.remove w path). rewrite remove_previews.
    now apply no_preview_for_filter.
  - unfold resume. destruct (nth_error (pending w) i) as [t|]; [|exact Hw].
    destruct t as [sp|sp|fp|fp]; destruct s as [r|r|r|r]; try exact Hw.
    + now destruct (handleAddFiles_resume_frame sp r (drop_pending i w)) as (-> & _).
    + now destruct (handleAddFolder_resume_frame sp r (drop_pending i w)) as (-> & _).
    + destruct r as [[|]|]; exact Hw.
    + destruct r as [data|]; [|exact Hw].
      cbn [brings_preview_for] in Hbr. now apply no_preview_for_data.
Qed.

Lemma finish_success_previews (w : world) (i : nat) (fp : list string)
    (data : list ContextFilePreview) :
  nth_error (pending w) i = Some (PreviewFetchK fp) ->
  previews (finish_attempt i (Success data) w) = data.
Proof.
  intros Hi. unfold finish_attempt, run. cbn [fold_left step].
  now rewrite (resume_json_last w i fp (Resolved data) Hi).
Qed.

(** C2, as the code has it.  Right after the removal of [p] no preview entry
    has path [p], and none has through any later events, as long as none of
    them applies a preview response with an entry for [p].  A response is
    applied as it arrives: when a fetch that was in flight at the removal
    resolves, the previews are its entries, whatever their paths. *)
Theorem remove_drops_previews (w : world) (p : string) (es : list event) :
  forallb (fun e => negb (brings_preview_for p e)) es = true ->
  no_preview_for p (previews (PathSet.remove w p))
  /\ no_preview_for p (previews (run (PathSet.remove w p) es))
  /\ forall i fp data,
       nth_error (pending w) i = Some (PreviewFetchK fp) ->
       previews (finish_attempt i (Success data) (PathSet.remove w p)) = data.
Proof.
  intros Hes. split; [|split].
  - rewrite remove_previews. apply no_preview_for_removed.
  - assert (H0 : no_preview_for p (previews (PathSet.remove w p)))
      by (rewrite remove_previews; apply no_preview_for_removed).
    revert H0. generalize (PathSet.remove w p) as w1.
    induction es as [|e es IH]; intros w1 H1; [exact H1|].
    cbn [forallb] in Hes. apply andb_prop in Hes. destruct Hes as [He Hes].
    unfold run. cbn [fold_left]. apply (IH Hes).
    apply no_preview_for_step; [|exact H1].
    now destruct (brings_preview_for p e).
  - intros i fp data Hi. now apply (finish_success_previews _ i fp).
Qed.

Lemma remove_drops_previews_witness :
  let entry := mkPreview "x.py" "x.py" "..." 120 in
  let w := run (mount ["x.py"; "y.py"] "http://localhost:5167")
               [ClickPreview; Settle 0 (FetchResponse (Resolved true));
                Settle 0 (JsonBody (Resolved [entry])); ClickPreview] in
  let es := [Settle 0 (FetchResponse (Resolved false)); ClickAddFiles] in
  previews w = [entry]
  /\ no_preview_for "x.py" (previews (run (PathSet.remove w "x.py") es)).
Proof.
  intros entry w es.
  assert (Hes : forallb (fun e => negb (brings_preview_for "x.py" e)) es = true)
    by (vm_compute; reflexivity).
  split; [vm_compute; reflexivity|].
  exact (proj1 (proj2 (remove_drops_previews w "x.py" es Hes))).
Defined.

(** C2, as the claim has it, fails: with a fetch for ["x.py"] in flight,
    ["x.py"] is removed, the fetch then resolves, and the entry for
    ["x.py"] is among the previews. *)
Lemma remove_then_stale_response :
  let entry := mkPreview "x.py" "x.py" "..." 120 in
  let w := run (mount ["x.py"] "http://localhost:5167") [ClickPreview] in
  let removed := PathSet.remove w "x.py" in
  let resolved := finish_attempt 0 (Success [entry]) removed in
  nth_error (pending w) 0 = Some (PreviewFetchK ["x.py"])
  /\ paths removed = []
  /\ previews removed = []
  /\ previews resolved = [entry]
  /\ ~ no_preview_for "x.py" (previews resolved).
Proof.
  intros entry w removed resolved.
  assert (Hr : previews resolved = [entry]) by (vm_compute; reflexivity).
  split; [vm_compute; reflexivity|].
  split; [vm_compute; reflexivity|].
  split; [vm_compute; reflexivity|].
  split; [exact Hr|].
  intros Hno. apply (Hno entry); [rewrite Hr; now left|reflexivity].
Qed.

(* ------------------------------------------------------------------ *)
(** ** Display names *)

Section DisplayName.

Lemma split_not_nil (sep : ascii) (s : string) : split sep s <> [].
Proof.
  destruct s as [|c s]; simpl; [discriminate|].
  destruct (Ascii.eqb c sep); [discriminate|].
  destruct (split sep s); discriminate.
Qed.

Lemma is_separator_false (c : ascii) :
  is_separator c = false ->
  Ascii.eqb c backslash = false /\ Ascii.eqb c slash = false.
Proof.
  unfold is_separator. intros H. apply orb_false_elim in H. tauto.
Qed.

(** A separator becomes a slash; any other character stays. *)
Lemma replaced_separator (c : ascii) :
  is_separator c = true ->
  Ascii.eqb (if Ascii.eqb c backslash then slash else c) slash = true.
Proof.
  unfold is_separator. intros H.
  destruct (Ascii.eqb c backslash); [reflexivity|].
  now rewrite orb_false_r in H.
Qed.

Lemma split_no_separator (s : string) :
  has_separator s = false -> split slash (replace_backslashes s) = [s].
Proof.
  induction s as [|c s IH]; simpl; intros H; [reflexivity|].
  apply orb_false_elim in H. destruct H as [Hc Hs].
  destruct (is_separator_false c Hc) as [-> ->].
  now rewrite (IH Hs).
Qed.

Lemma split_two_parts (s : string) :
  has_separator s = true ->
  exists a b l, split slash (replace_backslashes s) = a :: b :: l.
Proof.
  induction s as [|c s IH]; simpl; intros H; [discriminate|].
  destruct (is_separator c) eqn:Hc.
  - rewrite (replaced_separator c Hc).
    destruct (split slash (replace_backslashes s)) as [|b l] eqn:Hsp.
    + now apply split_not_nil in Hsp.
    + now exists EmptyString, b, l.
  - simpl in H. destruct (IH H) as (a & b & l & ->).
    destruct (is_separator_false c Hc) as [-> ->].
    now exists (String c a), b, l.
Qed.

Lemma last_segment_no_separator (s : string) :
  has_separator s = false -> last_segment s = s.
Proof.
  destruct s as [|c s]; simpl; intros H; [reflexivity|].
  apply orb_false_elim in H. destruct H as [-> ->]. reflexivity.
Qed.

Lemma last_part (s : string) :
  last (split slash (replace_backslashes s)) EmptyString = last_segment s.
Proof.
  induction s as [|c s IH]; [reflexivity|].
  cbn [replace_backslashes split last_segment].
  destruct (is_separator c) eqn:Hc.
  - rewrite (replaced_separator c Hc).
    destruct (split slash (replace_backslashes s)) as [|b l] eqn:Hsp.
    + now apply split_not_nil in Hsp.
    + cbn [last]. cbn [last] in IH. rewrite IH.
      destruct (has_separator s) eqn:Hs; [reflexivity|].
      now apply last_segment_no_separator.
  - destruct (is_separator_false c Hc) as [-> ->].
    destruct (has_separator s) eqn:Hs.
    + destruct (split_two_parts s Hs) as (a & b & l & Hsp).
      rewrite Hsp in IH |- *. exact IH.
    + now rewrite (split_no_separator s Hs).
Qed.

Lemma nth_error_last_index {A : Type} (l : list A) (d : A) :
  l <> [] -> nth_error l (length l - 1) = Some (last l d).
Proof.
  induction l as [|x l IH]; intros Hne; [congruence|].
  destruct l as [|y l]; [reflexivity|].
  replace (length (x :: y :: l) - 1) with (S (length (y :: l) - 1))
    by (cbn [length]; lia).
  cbn [nth_error]. now rewrite IH.
Qed.

(** [last_segment] is a suffix that holds no separator and starts right
    after one, or at the start of the string. *)
Lemma last_segment_spec (s : string) :
  has_separator (last_segment s) = false
  /\ exists pre,
       s = (pre ++ last_segment s)%string
       /\ (pre = EmptyString
           \/ exists pre' c, pre = (pre' ++ String c EmptyString)%string
                             /\ is_separator c = true).
Proof.
  induction s as [|c s [IHn (pre & IHp & IHs)]]; cbn [last_segment].
  - split; [reflexivity|]. exists EmptyString. now split; [|left].
  - destruct (has_separator s) eqn:Hs.
    + split; [exact IHn|]. exists (String c pre). split.
      * simpl. now rewrite <- IHp.
      * right. destruct IHs as [->|(pre' & c' & -> & Hc')].
        -- rewrite (last_segment_no_separator s) in IHn by
             (simpl in IHp; rewrite <- IHp in IHn; exact IHn).
           congruence.
        -- now exists (String c pre'), c'.
    + destruct (is_separator c) eqn:Hc.
      * split; [exact Hs|]. exists (String c EmptyString). split; [reflexivity|].
        right. now exists EmptyString, c.
      * split; [simpl; now rewrite Hc, Hs|].
        exists EmptyString. now split; [|left].
Qed.

End DisplayName.

Lemma getFilename_eq (path : string) :
  getFilename path
  = if truthy (last_segment path) then last_segment path else path.
Proof.
  unfold getFilename.
  rewrite (nth_error_last_index _ EmptyString) by apply split_not_nil.
  now rewrite last_part.
Qed.

(** C9, as the code has it.  The display name is the last segment of the
    path, with [/] and [\] both separating, unless that segment is empty
    (the path is empty or ends in a separator): then it is the path itself.
    Either way it is a suffix of the path, character for character. *)
Theorem getFilename_last_segment (path : string) :
  getFilename path
  = (if String.eqb (last_segment path) "" then path else last_segment path)
  /\ exists pre, path = (pre ++ getFilename path)%string.
Proof.
  rewrite getFilename_eq. unfold truthy.
  destruct (String.eqb (last_segment path) ""); cbn [negb].
  - split; [reflexivity|]. now exists EmptyString.
  - split; [reflexivity|].
    destruct (last_segment_spec path) as (_ & pre & Hpre & _). now exists pre.
Qed.

(** C9, as the claim has it, fails: the last segment of ["dir/"] is empty,
    and its display name is ["dir/"]. *)
Lemma getFilename_trailing_separator :
  last_segment "dir/" = ""
  /\ getFilename "dir/" = "dir/"
  /\ getFilename "dir/" <> last_segment "dir/".
Proof.
  split; [reflexivity|]. split; [reflexivity|]. discriminate.
Qed.

(* ------------------------------------------------------------------ *)
(** ** Well-formed worlds *)

Section WellFormed.

Lemma wf_iff (w : world) :
  wf w = true <->
  selectedPaths w < length (arrays w)
  /\ forallb (task_ref_ok (length (arrays w))) (pending w) = true.
Proof.
  unfold wf. rewrite andb_true_iff, Nat.ltb_lt. reflexivity.
Qed.

Lemma task_ref_ok_mono (n m : nat) (l : list task) :
  n <= m ->
  forallb (task_ref_ok n) l = true -> forallb (task_ref_ok m) l = true.
Proof.
  intros Hnm. rewrite !forallb_forall. intros Hl t Ht.
  specialize (Hl t Ht). destruct t; simpl in *; try reflexivity;
    apply Nat.ltb_lt in Hl; apply Nat.ltb_lt; lia.
Qed.

Lemma task_ref_ok_remove_nth (n i : nat) (l : list task) :
  forallb (task_ref_ok n) l = true ->
  forallb (task_ref_ok n) (remove_nth i l) = true.
Proof.
  revert i. induction l as [|t l IH]; intros [|i]; simpl; try reflexivity;
    rewrite !andb_true_iff; intros [Ht Hl]; [assumption|].
  split; [assumption|now apply IH].
Qed.

Lemma task_ref_ok_suspend (n : nat) (l : list task) (t : task) :
  forallb (task_ref_ok n) l = true -> task_ref_ok n t = true ->
  forallb (task_ref_ok n) (l ++ [t]) = true.
Proof.
  intros Hl Ht. rewrite forallb_app, Hl. simpl. now rewrite Ht.
Qed.

(** A handler that allocates one array and hands it to the owner. *)
Lemma wf_publish (w : world) (a : list string) (ps : list ContextFilePreview)
    (cs : list call) :
  wf w = true ->
  wf (mkWorld (arrays w ++ [a]) (length (arrays w)) (apiBaseUrl w) ps
              (isLoadingPreview w) (pending w) cs) = true.
Proof.
  rewrite !wf_iff. cbn [arrays selectedPaths pending].
  rewrite length_app. simpl. intros [Hsp Hp]. split; [lia|].
  apply (task_ref_ok_mono (length (arrays w))); [lia|assumption].
Qed.

Lemma wf_drop_pending (w : world) (i : nat) :
  wf w = true -> wf (drop_pending i w) = true.
Proof.
  rewrite !wf_iff. unfold drop_pending. cbn [arrays selectedPaths pending].
  intros [Hsp Hp]. split; [assumption|now apply task_ref_ok_remove_nth].
Qed.

Lemma wf_handleAddFiles_resume (sp : ref) (r : outcome (option (list string)))
    (w : world) :
  wf w = true -> wf (exec (handleAddFiles_resume sp r) w) = true.
Proof.
  intros Hw. destruct r as [[[|x selected]|]|]; try exact Hw.
  rewrite handleAddFiles_resume_run by discriminate. now apply wf_publish.
Qed.

Lemma wf_handleAddFolder_resume (sp : ref) (r : outcome (option string))
    (w : world) :
  wf w = true -> wf (exec (handleAddFolder_resume sp r) w) = true.
Proof.
  intros Hw. destruct r as [[selected|]|]; try exact Hw.
  unfold handleAddFolder_resume. destruct (truthy selected); [|exact Hw].
  run_handler. destruct (includes (deref (arrays w) sp) selected); [exact Hw|].
  run_handler. now apply wf_publish.
Qed.

Lemma wf_step (w : world) (e : event) :
  wf w = true -> wf (step w e) = true.
Proof.
  intros Hw. destruct e as [| | | |path|i s]; cbn [step].
  - apply wf_iff in Hw. destruct Hw as [Hsp Hp]. apply wf_iff.
    unfold handleAddFiles. run_handler. split; [assumption|].
    apply task_ref_ok_suspend; [assumption|now apply Nat.ltb_lt].
  - apply wf_iff in Hw. destruct Hw as [Hsp Hp]. apply wf_iff.
    unfold handleAddFolder. run_handler. split; [assumption|].
    apply task_ref_ok_suspend; [assumption|now apply Nat.ltb_lt].
  - destruct (paths w) as [|x l] eqn:Hpaths; [exact Hw|].
    destruct (isLoadingPreview w); [exact Hw|].
    cbn [length Nat.ltb Nat.leb andb negb].
    rewrite handlePreview_run by (rewrite Hpaths; discriminate).
    apply wf_iff in Hw. destruct Hw as [Hsp Hp]. apply wf_iff.
    cbn [arrays selectedPaths pending]. split; [assumption|].
    now apply task_ref_ok_suspend.
  - destruct (0 <? length (paths w))%nat; [|exact Hw].
    unfold handleClearAll. run_handler. now apply wf_publish.
  - destruct (includes (paths w) path); [|exact Hw].
    unfold handleRemovePath. run_handler. now apply wf_publish.
  - unfold resume. destruct (nth_error (pending w) i) as [t|]; [|exact Hw].
    pose proof (wf_drop_pending w i Hw) as Hd.
    destruct t as [sp|sp|fp|fp]; destruct s as [r|r|r|r]; try exact Hw.
    + now apply wf_handleAddFiles_resume.
    + now apply wf_handleAddFolder_resume.
    + apply wf_iff in Hd. destruct Hd as [Hsp Hp].
      destruct r as [[|]|]; unfold handlePreview_afterFetch; run_handler;
        apply wf_iff; cbn [arrays selectedPaths pending]; (split; [assumption|]);
        try assumption.
      now apply task_ref_ok_suspend.
    + apply wf_iff in Hd. destruct Hd as [Hsp Hp].
      destruct r as [data|]; unfold handlePreview_afterJson; run_handler;
        apply wf_iff; cbn [arrays selectedPaths pending]; now split.
Qed.

(** Every world a mounted picker reaches is well formed. *)
Lemma wf_run (es : list event) :
  forall w, wf w = true -> wf (run w es) = true.
Proof.
  induction es as [|e es IH]; intros w Hw; [exact Hw|].
  apply IH. now apply wf_step.
Qed.

Lemma wf_mount (selected : list string) (url : string) :
  wf (mount selected url) = true.
Proof. reflexivity. Qed.

End WellFormed.

(* ------------------------------------------------------------------ *)
(** ** Scenarios *)

(** From an empty selection: the file dialog returns two files, the folder
    dialog returns one of them again, that one is removed, and the rest is
    cleared. *)
Example scenario_selection :
  let url := "http://localhost:5167" in
  let w1 := run (mount [] url)
                [ClickAddFiles;
                 Settle 0 (DialogFiles (Resolved (Some ["a.txt"; "b.txt"])))] in
  let w2 := run w1 [ClickAddFolder; Settle 0 (DialogFolder (Resolved (Some "a.txt")))] in
  let w3 := run w2 [ClickRemove "a.txt"] in
  let w4 := run w3 [ClickClearAll] in
  paths w1 = ["a.txt"; "b.txt"]
  /\ paths w2 = ["a.txt"; "b.txt"]
  /\ paths w3 = ["b.txt"]
  /\ paths w4 = [].
Proof. vm_compute. repeat split. Qed.

(** A preview is fetched and shown, then its path is removed. *)
Example scenario_preview :
  let entry := mkPreview "x.py" "x.py" "..." 120 in
  let w1 := run (mount ["x.py"] "http://localhost:5167")
                [ClickPreview; Settle 0 (FetchResponse (Resolved true));
                 Settle 0 (JsonBody (Resolved [entry]))] in
  let w2 := run w1 [ClickRemove "x.py"] in
  calls w1 = [Fetch "http://localhost:5167/read-context-files" "" ["x.py"]]
  /\ previews w1 = [entry]
  /\ isLoadingPreview w1 = false
  /\ previews w2 = []
  /\ paths w2 = [].
Proof. vm_compute. repeat split. Qed.

(** The endpoint answers with a status that is not a success: the previews
    shown before stay, and so does the selection. *)
Example scenario_preview_failure :
  let entry := mkPreview "x.py" "x.py" "..." 120 in
  let w1 := run (mount ["x.py"] "http://localhost:5167")
                [ClickPreview; Settle 0 (FetchResponse (Resolved true));
                 Settle 0 (JsonBody (Resolved [entry]))] in
  let w2 := run w1 [ClickPreview; Settle 0 (FetchResponse (Resolved false))] in
  previews w2 = [entry]
  /\ paths w2 = ["x.py"]
  /\ isLoadingPreview w2 = false.
Proof. vm_compute. repeat split. Qed.

(* ------------------------------------------------------------------ *)
(** ** Dialogs that bring nothing *)

Lemma resume_newest (w : world) (t : task) (s : settlement) (cs : list call) :
  let opened := mkWorld (arrays w) (selectedPaths w) (apiBaseUrl w) (previews w)
                        (isLoadingPreview w) (pending w ++ [t]) cs in
  nth_error (pending opened) (length (pending w)) = Some t
  /\ drop_pending (length (pending w)) opened
     = mkWorld (arrays w) (selectedPaths w) (apiBaseUrl w) (previews w)
               (isLoadingPreview w) (pending w) cs.
Proof.
  cbn zeta. unfold drop_pending.
  cbn [arrays selectedPaths apiBaseUrl previews isLoadingPreview pending calls].
  now rewrite nth_error_last, remove_nth_last.
Qed.

Lemma step_click_add_files (w : world) :
  step w ClickAddFiles
  = mkWorld (arrays w) (selectedPaths w) (apiBaseUrl w) (previews w)
            (isLoadingPreview w) (pending w ++ [AddFilesK (selectedPaths w)])
            (calls w ++ [Invoke "select_context_files"]).
Proof. reflexivity. Qed.

Lemma step_click_add_folder (w : world) :
  step w ClickAddFolder
  = mkWorld (arrays w) (selectedPaths w) (apiBaseUrl w) (previews w)
            (isLoadingPreview w) (pending w ++ [AddFolderK (selectedPaths w)])
            (calls w ++ [Invoke "select_context_folder"]).
Proof. reflexivity. Qed.

Lemma settle_newest_files (w : world) (r : outcome (option (list string))) :
  step (step w ClickAddFiles) (Settle (length (pending w)) (DialogFiles r))
  = exec (handleAddFiles_resume (selectedPaths w) r)
         (logged (Invoke "select_context_files") w).
Proof.
  rewrite step_click_add_files. cbn [step]. unfold resume.
  destruct (resume_newest w (AddFilesK (selectedPaths w)) (DialogFiles r)
              (calls w ++ [Invoke "select_context_files"])) as [Hn Hd].
  cbn zeta in Hn, Hd. rewrite Hn, Hd. reflexivity.
Qed.

Lemma settle_newest_folder (w : world) (r : outcome (option string)) :
  step (step w ClickAddFolder) (Settle (length (pending w)) (DialogFolder r))
  = exec (handleAddFolder_resume (selectedPaths w) r)
         (logged (Invoke "select_context_folder") w).
Proof.
  rewrite step_click_add_folder. cbn [step]. unfold resume.
  destruct (resume_newest w (AddFolderK (selectedPaths w)) (DialogFolder r)
              (calls w ++ [Invoke "select_context_folder"])) as [Hn Hd].
  cbn zeta in Hn, Hd. rewrite Hn, Hd. reflexivity.
Qed.

(** X1. A dialog that is opened and then cancelled brings the picker back
    to where it was: when the file dialog returns [null] or an empty array,
    or the folder dialog returns [null] or the empty string, the world is
    the one before the click but for the [invoke] in the call log; in
    particular [onSelectionChange] is not called and no handler stays
    suspended. *)
Theorem dialog_cancelled (w : world) :
  let i := length (pending w) in
  step (step w ClickAddFiles) (Settle i (DialogFiles (Resolved None)))
  = logged (Invoke "select_context_files") w
  /\ step (step w ClickAddFiles) (Settle i (DialogFiles (Resolved (Some []))))
     = logged (Invoke "select_context_files") w
  /\ step (step w ClickAddFolder) (Settle i (DialogFolder (Resolved None)))
     = logged (Invoke "select_context_folder") w
  /\ step (step w ClickAddFolder) (Settle i (DialogFolder (Resolved (Some ""))))
     = logged (Invoke "select_context_folder") w.
Proof.
  cbn zeta. rewrite !settle_newest_files, !settle_newest_folder.
  repeat split.
Qed.

(** X2. A dialog whose [invoke] rejects is caught: the failure is written
    to the console, once, and the selection, the store, the previews, the
    loading flag and the suspended handlers are those before the click. *)
Theorem dialog_failed (w : world) :
  let i := length (pending w) in
  step (step w ClickAddFiles) (Settle i (DialogFiles Rejected))
  = logged (ConsoleError "Failed to open file picker:")
           (logged (Invoke "select_context_files") w)
  /\ step (step w ClickAddFolder) (Settle i (DialogFolder Rejected))
     = logged (ConsoleError "Failed to open folder picker:")
              (logged (Invoke "select_context_folder") w).
Proof.
  cbn zeta. rewrite settle_newest_files, settle_newest_folder.
  split; reflexivity.
Qed.

(* ------------------------------------------------------------------ *)
(** ** Arrays are never changed once handed out *)

Lemma store_extends_refl (h : store) : store_extends h h.
Proof. exists []. now rewrite app_nil_r. Qed.

Lemma store_extends_one (h : store) (a : list string) : store_extends h (h ++ [a]).
Proof. now exists [a]. Qed.

Lemma store_extends_trans (h1 h2 h3 : store) :
  store_extends h1 h2 -> store_extends h2 h3 -> store_extends h1 h3.
Proof.
  intros [a ->] [b ->]. exists (a ++ b). now rewrite app_assoc.
Qed.

Lemma store_extends_deref (h h' : store) (r : ref) :
  store_extends h h' -> r < length h -> deref h' r = deref h r.
Proof.
  intros [added ->] Hr. unfold deref. now apply app_nth1.
Qed.

Lemma store_extends_length (h h' : store) :
  store_extends h h' -> length h <= length h'.
Proof. intros [added ->]. rewrite length_app. lia. Qed.

Lemma handleAddFiles_resume_store (sp : ref) (r : outcome (option (list string)))
    (w : world) :
  store_extends (arrays w) (arrays (exec (handleAddFiles_resume sp r) w)).
Proof.
  destruct r as [[[|x selected]|]|]; try apply store_extends_refl.
  rewrite handleAddFiles_resume_run by discriminate. apply store_extends_one.
Qed.

Lemma handleAddFolder_resume_store (sp : ref) (r : outcome (option string))
    (w : world) :
  store_extends (arrays w) (arrays (exec (handleAddFolder_resume sp r) w)).
Proof.
  destruct r as [[selected|]|]; try apply store_extends_refl.
  unfold handleAddFolder_resume. destruct (truthy selected);
    [|apply store_extends_refl].
  run_handler. destruct (includes (deref (arrays w) sp) selected); run_handler;
    [apply store_extends_refl|apply store_extends_one].
Qed.

Lemma step_store_extends (w : world) (e : event) :
  store_extends (arrays w) (arrays (step w e)).
Proof.
  destruct e as [| | | |path|i s]; cbn [step].
  - apply store_extends_refl.
  - apply store_extends_refl.
  - destruct (paths w) as [|x l] eqn:Hp; [apply store_extends_refl|].
    destruct (isLoadingPreview w); [apply store_extends_refl|].
    cbn [length Nat.ltb Nat.leb andb negb].
    rewrite handlePreview_run by (rewrite Hp; discriminate).
    apply store_extends_refl.
  - destruct (0 <? length (paths w))%nat; [|apply store_extends_refl].
    unfold handleClearAll. run_handler. apply store_extends_one.
  - destruct (includes (paths w) path); [|apply store_extends_refl].
    unfold handleRemovePath. run_handler. apply store_extends_one.
  - unfold resume. destruct (nth_error (pending w) i) as [t|];
      [|apply store_extends_refl].
    destruct t as [sp|sp|fp|fp]; destruct s as [r|r|r|r];
      try apply store_extends_refl.
    + apply (handleAddFiles_resume_store sp r (drop_pending i w)).
    + apply (handleAddFolder_resume_store sp r (drop_pending i w)).
    + destruct r as [[|]|]; apply store_extends_refl.
    + destruct r as [data|]; apply store_extends_refl.
Qed.

Lemma run_store_extends (es : list event) :
  forall w, store_extends (arrays w) (arrays (run w es)).
Proof.
  induction es as [|e es IH]; intros w; [apply store_extends_refl|].
  apply (store_extends_trans _ (arrays (step w e))).
  - apply step_store_extends.
  - apply IH.
Qed.

(** X3. No handler changes an array that exists already: whatever events
    follow, an array of the store holds what it held, and the store only
    grows.  The [push] of [handleAddFiles] goes to the copy it made, and
    removal and clearing build new arrays. *)
Theorem arrays_never_mutated (w : world) (es : list event) (r : ref) :
  r < length (arrays w) ->
  deref (arrays (run w es)) r = deref (arrays w) r
  /\ length (arrays w) <= length (arrays (run w es)).
Proof.
  intros Hr. pose proof (run_store_extends es w) as Hext. split.
  - now apply store_extends_deref.
  - now apply store_extends_length.
Qed.

Lemma arrays_never_mutated_witness :
  let w := mount ["a.txt"; "b.txt"] "http://localhost:5167" in
  let es := [ClickAddFiles; Settle 0 (DialogFiles (Resolved (Some ["c.txt"])));
             ClickRemove "a.txt"; ClickClearAll] in
  paths (run w es) = []
  /\ deref (arrays (run w es)) 0 = ["a.txt"; "b.txt"].
Proof.
  intros w es.
  assert (Hr : 0 < length (arrays w)) by (vm_compute; lia).
  split; [vm_compute; reflexivity|].
  exact (proj1 (arrays_never_mutated w es 0 Hr)).
Defined.

(* ------------------------------------------------------------------ *)
(** ** A dialog result is merged into the selection of the click *)

(** X4. The handler that opened the file dialog merges the result into the
    [selectedPaths] of its own render.  Whatever happens while the dialog is
    open, a non-empty result makes the selection the one of the click
    followed by the new paths: removals made meanwhile are undone, and
    additions made meanwhile are lost unless they are in the result. *)
Theorem files_merge_into_snapshot (w : world) (es : list event) (i : nat)
    (incoming : list string) :
  wf w = true ->
  incoming <> [] ->
  nth_error (pending (run (step w ClickAddFiles) es)) i
    = Some (AddFilesK (selectedPaths w)) ->
  paths (step (run (step w ClickAddFiles) es)
              (Settle i (DialogFiles (Resolved (Some incoming)))))
  = paths w ++ appended (paths w) [] incoming.
Proof.
  intros Hwf Hne Hi.
  apply wf_iff in Hwf. destruct Hwf as [Hsp _].
  set (w1 := run (step w ClickAddFiles) es) in *.
  assert (Hsnap : deref (arrays w1) (selectedPaths w) = paths w).
  { unfold paths. apply store_extends_deref; [|exact Hsp].
    apply (store_extends_trans _ (arrays (step w ClickAddFiles))).
    - apply step_store_extends.
    - apply run_store_extends. }
  cbn [step]. unfold resume. rewrite Hi.
  rewrite handleAddFiles_resume_run by assumption.
  unfold paths at 1. cbn [arrays selectedPaths drop_pending].
  rewrite deref_new, Hsnap.
  apply merge_appended. intros y. simpl. now rewrite orb_false_r.
Qed.

Lemma files_merge_into_snapshot_witness :
  let w := mount ["a.txt"; "b.txt"] "http://localhost:5167" in
  let es := [ClickRemove "a.txt"] in
  paths (run (step w ClickAddFiles) es) = ["b.txt"]
  /\ paths (step (run (step w ClickAddFiles) es)
                 (Settle 0 (DialogFiles (Resolved (Some ["c.txt"])))))
     = ["a.txt"; "b.txt"; "c.txt"].
Proof.
  intros w es.
  assert (Hwf : wf w = true) by (vm_compute; reflexivity).
  assert (Hne : ["c.txt"] <> []) by discriminate.
  assert (Hi : nth_error (pending (run (step w ClickAddFiles) es)) 0
               = Some (AddFilesK (selectedPaths w))) by (vm_compute; reflexivity).
  split; [vm_compute; reflexivity|].
  exact (files_merge_into_snapshot w es 0 ["c.txt"] Hwf Hne Hi).
Defined.

(** X5. The same for the folder dialog: a folder that was not selected at
    the click is appended to the selection of the click, whatever happened
    while the dialog was open. *)
Theorem folder_merges_into_snapshot (w : world) (es : list event) (i : nat)
    (folder : string) :
  wf w = true ->
  folder <> "" ->
  ~ In folder (paths w) ->
  nth_error (pending (run (step w ClickAddFolder) es)) i
    = Some (AddFolderK (selectedPaths w)) ->
  paths (step (run (step w ClickAddFolder) es)
              (Settle i (DialogFolder (Resolved (Some folder)))))
  = paths w ++ [folder].
Proof.
  intros Hwf Hne Hnew Hi.
  apply wf_iff in Hwf. destruct Hwf as [Hsp _].
  set (w1 := run (step w ClickAddFolder) es) in *.
  assert (Hsnap : deref (arrays w1) (selectedPaths w) = paths w).
  { unfold paths. apply store_extends_deref; [|exact Hsp].
    apply (store_extends_trans _ (arrays (step w ClickAddFolder))).
    - apply step_store_extends.
    - apply run_store_extends. }
  cbn [step]. unfold resume. rewrite Hi. unfold handleAddFolder_resume.
  assert (Ht : truthy folder = true).
  { unfold truthy. destruct (String.eqb_spec folder ""); [contradiction|reflexivity]. }
  rewrite Ht. run_handler. unfold drop_pending at 1. cbn [arrays]. rewrite Hsnap.
  apply includes_not_In in Hnew. rewrite Hnew.
  unfold paths at 1. run_handler. unfold drop_pending. cbn [arrays].
  now rewrite deref_new, Hsnap.
Qed.

Lemma folder_merges_into_snapshot_witness :
  let w := mount ["a.txt"; "b.txt"] "http://localhost:5167" in
  let es := [ClickClearAll] in
  paths (run (step w ClickAddFolder) es) = []
  /\ paths (step (run (step w ClickAddFolder) es)
                 (Settle 0 (DialogFolder (Resolved (Some "docs")))))
     = ["a.txt"; "b.txt"; "docs"].
Proof.
  intros w es.
  assert (Hwf : wf w = true) by (vm_compute; reflexivity).
  assert (Hne : "docs" <> "") by discriminate.
  assert (Hnew : ~ In "docs" (paths w)) by (vm_compute; intuition discriminate).
  assert (Hi : nth_error (pending (run (step w ClickAddFolder) es)) 0
               = Some (AddFolderK (selectedPaths w))) by (vm_compute; reflexivity).
  split; [vm_compute; reflexivity|].
  exact (folder_merges_into_snapshot w es 0 "docs" Hwf Hne Hnew Hi).
Defined.

(* ------------------------------------------------------------------ *)
(** ** The selection stays free of duplicates *)

Lemma deref_NoDup (h : store) (r : ref) :
  Forall (@NoDup string) h -> NoDup (deref h r).
Proof.
  intros Hh. unfold deref. destruct (Nat.lt_ge_cases r (length h)) as [Hr|Hr].
  - rewrite Forall_forall in Hh. apply Hh. now apply nth_In.
  - rewrite nth_overflow by assumption. constructor.
Qed.

Lemma store_NoDup_new (h : store) (a : list string) :
  Forall (@NoDup string) h -> NoDup a -> Forall (@NoDup string) (h ++ [a]).
Proof.
  intros Hh Ha. apply Forall_app. split; [assumption|]. now repeat constructor.
Qed.

Lemma NoDup_snoc (a : list string) (x : string) :
  NoDup a -> ~ In x a -> NoDup (a ++ [x]).
Proof.
  intros Ha Hx. apply NoDup_app; [assumption|repeat constructor; intros []|].
  intros y Hy [<-|[]]. contradiction.
Qed.

Lemma step_store_NoDup (w : world) (e : event) :
  Forall (@NoDup string) (arrays w) ->
  Forall (@NoDup string) (arrays (step w e)).
Proof.
  intros Hw. destruct e as [| | | |path|i s]; cbn [step].
  - exact Hw.
  - exact Hw.
  - destruct (paths w) as [|x l] eqn:Hp; [exact Hw|].
    destruct (isLoadingPreview w); [exact Hw|].
    cbn [length Nat.ltb Nat.leb andb negb].
    now rewrite handlePreview_run by (rewrite Hp; discriminate).
  - destruct (0 <? length (paths w))%nat; [|exact Hw].
    unfold handleClearAll. run_handler. apply store_NoDup_new; [exact Hw|constructor].
  - destruct (includes (paths w) path); [|exact Hw].
    unfold handleRemovePath. run_handler. apply store_NoDup_new; [exact Hw|].
    apply NoDup_filter. now apply deref_NoDup.
  - unfold resume. destruct (nth_error (pending w) i) as [t|]; [|exact Hw].
    destruct t as [sp|sp|fp|fp]; destruct s as [r|r|r|r]; try exact Hw.
    + destruct r as [[[|x selected]|]|]; try exact Hw.
      rewrite handleAddFiles_resume_run by discriminate.
      cbn [arrays drop_pending]. apply store_NoDup_new; [exact Hw|].
      apply merge_NoDup. now apply deref_NoDup.
    + destruct r as [[selected|]|]; try exact Hw.
      unfold handleAddFolder_resume. destruct (truthy selected); [|exact Hw].
      run_handler. unfold drop_pending. cbn [arrays].
      destruct (includes (deref (arrays w) sp) selected) eqn:Hin; run_handler;
        [exact Hw|].
      apply store_NoDup_new; [exact Hw|].
      apply NoDup_snoc; [now apply deref_NoDup|now apply includes_not_In].
    + destruct r as [[|]|]; exact Hw.
    + destruct r as [data|]; exact Hw.
Qed.

(** X6. A picker mounted with a selection without duplicates never shows
    one with duplicates, whatever is clicked, whatever the dialogs and the
    endpoint answer and in whatever order: the keys of its rows stay
    distinct. *)
Theorem selection_stays_duplicate_free (selected : list string) (url : string)
    (es : list event) :
  NoDup selected ->
  NoDup (paths (run (mount selected url) es)).
Proof.
  intros Hsel. apply deref_NoDup.
  assert (H0 : Forall (@NoDup string) (arrays (mount selected url)))
    by (now repeat constructor).
  revert H0. generalize (mount selected url) as w.
  induction es as [|e es IH]; intros w Hw; [exact Hw|].
  apply IH. now apply step_store_NoDup.
Qed.

Lemma selection_stays_duplicate_free_witness :
  let es := [ClickAddFiles; ClickRemove "a.txt";
             Settle 0 (DialogFiles (Resolved (Some ["b.txt"; "c.txt"; "c.txt"])));
             ClickAddFolder; Settle 0 (DialogFolder (Resolved (Some "a.txt")))] in
  paths (run (mount ["a.txt"; "b.txt"] "http://localhost:5167") es)
  = ["a.txt"; "b.txt"; "c.txt"]
  /\ NoDup (paths (run (mount ["a.txt"; "b.txt"] "http://localhost:5167") es)).
Proof.
  intros es.
  assert (Hsel : NoDup ["a.txt"; "b.txt"])
    by (repeat constructor; simpl; intuition discriminate).
  split; [vm_compute; reflexivity|].
  exact (selection_stays_duplicate_free _ "http://localhost:5167" es Hsel).
Defined.

(* ------------------------------------------------------------------ *)
(** ** What is sent to the endpoint *)

Lemma fetch_well_formed_log (url : string) (cs : list call) (c : call) :
  forallb (fetch_well_formed url) cs = true ->
  fetch_well_formed url c = true ->
  forallb (fetch_well_formed url) (cs ++ [c]) = true.
Proof.
  intros Hcs Hc. rewrite forallb_app, Hcs. simpl. now rewrite Hc.
Qed.

Lemma step_fetch_well_formed (url : string) (w : world) (e : event) :
  apiBaseUrl w = url /\ forallb (fetch_well_formed url) (calls w) = true ->
  apiBaseUrl (step w e) = url
  /\ forallb (fetch_well_formed url) (calls (step w e)) = true.
Proof.
  intros [Hu Hc]. destruct e as [| | | |path|i s]; cbn [step].
  - unfold handleAddFiles. run_handler.
    split; [assumption|now apply fetch_well_formed_log].
  - unfold handleAddFolder. run_handler.
    split; [assumption|now apply fetch_well_formed_log].
  - destruct (paths w) as [|x l] eqn:Hp; [now split|].
    destruct (isLoadingPreview w); [now split|].
    cbn [length Nat.ltb Nat.leb andb negb].
    rewrite handlePreview_run by (rewrite Hp; discriminate).
    cbn [apiBaseUrl calls]. split; [assumption|].
    apply fetch_well_formed_log; [assumption|].
    rewrite Hp, Hu. cbn [fetch_well_formed length Nat.ltb Nat.leb].
    now rewrite !String.eqb_refl.
  - destruct (0 <? length (paths w))%nat; [|now split].
    unfold handleClearAll. run_handler.
    split; [assumption|now apply fetch_well_formed_log].
  - destruct (includes (paths w) path); [|now split].
    unfold handleRemovePath. run_handler.
    split; [assumption|now apply fetch_well_formed_log].
  - unfold resume. destruct (nth_error (pending w) i) as [t|]; [|now split].
    destruct t as [sp|sp|fp|fp]; destruct s as [r|r|r|r]; try now split.
    + destruct r as [[[|x selected]|]|]; try now split.
      * rewrite handleAddFiles_resume_run by discriminate.
        cbn [apiBaseUrl calls drop_pending].
        split; [assumption|now apply fetch_well_formed_log].
      * unfold handleAddFiles_resume, drop_pending. run_handler.
        split; [assumption|now apply fetch_well_formed_log].
    + destruct r as [[selected|]|]; try now split.
      * unfold handleAddFolder_resume. destruct (truthy selected); [|now split].
        run_handler. unfold drop_pending. cbn [arrays].
        destruct (includes (deref (arrays w) sp) selected); run_handler;
          [now split|].
        split; [assumption|now apply fetch_well_formed_log].
      * unfold handleAddFolder_resume, drop_pending. run_handler.
        split; [assumption|now apply fetch_well_formed_log].
    + destruct r as [[|]|]; unfold handlePreview_afterFetch, drop_pending;
        run_handler; try now split.
      split; [assumption|now apply fetch_well_formed_log].
    + destruct r as [data|]; unfold handlePreview_afterJson, drop_pending;
        run_handler; try now split.
      split; [assumption|now apply fetch_well_formed_log].
Qed.

(** X7. Every request a mounted picker ever sends goes to
    [apiBaseUrl/read-context-files], with an empty question and with at
    least one path: a preview is never asked for an empty selection. *)
Theorem fetches_well_formed (selected : list string) (url : string)
    (es : list event) :
  forallb (fetch_well_formed url) (calls (run (mount selected url) es)) = true.
Proof.
  assert (H0 : apiBaseUrl (mount selected url) = url
               /\ forallb (fetch_well_formed url) (calls (mount selected url)) = true)
    by now split.
  revert H0. generalize (mount selected url) as w.
  induction es as [|e es IH]; intros w Hw; [exact (proj2 Hw)|].
  apply IH. now apply step_fetch_well_formed.
Qed.

(* ------------------------------------------------------------------ *)
(** ** The loading flag is never stuck *)

Lemma filter_not_nil_nth {A : Type} (f : A -> bool) (l : list A) :
  filter f l <> [] -> exists i t, nth_error l i = Some t /\ f t = true.
Proof.
  induction l as [|x l IH]; simpl; intros H; [congruence|].
  destruct (f x) eqn:Hx.
  - now exists 0, x.
  - destruct (IH H) as (i & t & Hi & Ht). now exists (S i), t.
Qed.

(** X8. Whenever a mounted picker shows the loading flag, one preview
    attempt is suspended, and every settlement that ends it clears the flag
    and leaves no attempt in flight: the rejection of the promise it waits
    for, a response that is not [ok], and any settlement of
    [response.json()].  Any other settlement given to it leaves the flag
    set and the one attempt in flight. *)
Theorem loading_cleared_when_attempt_ends (selected : list string) (url : string)
    (es : list event) :
  isLoadingPreview (run (mount selected url) es) = true ->
  exists i t,
    nth_error (pending (run (mount selected url) es)) i = Some t
    /\ is_preview_task t = true
    /\ ends_attempt t (rejection_for t) = true
    /\ (forall s, ends_attempt t s = true ->
         isLoadingPreview (step (run (mount selected url) es) (Settle i s)) = false
         /\ inflight_previews (step (run (mount selected url) es) (Settle i s)) = 0)
    /\ (forall s, ends_attempt t s = false ->
         isLoadingPreview (step (run (mount selected url) es) (Settle i s)) = true
         /\ inflight_previews (step (run (mount selected url) es) (Settle i s)) = 1).
Proof.
  set (w := run (mount selected url) es). intros Hl.
  assert (Hinv : guard_inv w) by (apply guard_inv_run, guard_inv_mount).
  unfold guard_inv in Hinv. rewrite Hl in Hinv.
  assert (Hne : filter is_preview_task (pending w) <> []).
  { unfold inflight_previews in Hinv. intros Hnil. rewrite Hnil in Hinv.
    discriminate. }
  destruct (filter_not_nil_nth _ _ Hne) as (i & t & Hi & Ht).
  pose proof (remove_nth_filter is_preview_task (pending w) i t Hi) as Hcount.
  rewrite Ht in Hcount. unfold inflight_previews in Hinv.
  exists i, t. split; [exact Hi|]. split; [exact Ht|].
  destruct t as [sp|sp|fp|fp]; try discriminate.
  - split; [reflexivity|]. split.
    + intros s Hs. cbn [step]. unfold resume. rewrite Hi.
      destruct s as [r|r|[[|]|]|r]; try discriminate;
        unfold handlePreview_afterFetch, drop_pending, inflight_previews;
        run_handler; (split; [reflexivity|lia]).
    + intros s Hs. cbn [step]. unfold resume. rewrite Hi.
      destruct s as [r|r|[[|]|]|r]; try discriminate;
        try (split; [exact Hl|exact Hinv]).
      unfold handlePreview_afterFetch, drop_pending, inflight_previews.
      run_handler. rewrite inflight_suspend_preview by reflexivity.
      split; [exact Hl|lia].
  - split; [reflexivity|]. split.
    + intros s Hs. cbn [step]. unfold resume. rewrite Hi.
      destruct s as [r|r|r|[data|]]; try discriminate;
        unfold handlePreview_afterJson, drop_pending, inflight_previews;
        run_handler; (split; [reflexivity|lia]).
    + intros s Hs. cbn [step]. unfold resume. rewrite Hi.
      destruct s as [r|r|r|r]; try discriminate; (split; [exact Hl|exact Hinv]).
Qed.

Lemma loading_cleared_when_attempt_ends_witness :
  let w := run (mount ["x.py"] "http://localhost:5167")
               [ClickPreview; ClickClearAll;
                Settle 0 (FetchResponse (Resolved true))] in
  isLoadingPreview w = true
  /\ paths w = []
  /\ exists i t,
       nth_error (pending w) i = Some t
       /\ isLoadingPreview (step w (Settle i (rejection_for t))) = false.
Proof.
  intros w.
  assert (Hl : isLoadingPreview w = true) by (vm_compute; reflexivity).
  split; [exact Hl|]. split; [vm_compute; reflexivity|].
  destruct (loading_cleared_when_attempt_ends ["x.py"] "http://localhost:5167"
              [ClickPreview; ClickClearAll; Settle 0 (FetchResponse (Resolved true))]
              Hl) as (i & t & Hi & _ & Hrej & Hends & _).
  exists i, t. split; [exact Hi|]. exact (proj1 (Hends _ Hrej)).
Defined.

(* ------------------------------------------------------------------ *)
(** ** Adding does not touch the previews *)

(** X9. The Add buttons and their dialogs, whatever they return, leave the
    previews and the loading flag as they are, send nothing to the endpoint
    and start no preview attempt. *)
Theorem adding_leaves_previews (w : world) (e : event) :
  is_add_event e = true ->
  previews (step w e) = previews w
  /\ isLoadingPreview (step w e) = isLoadingPreview w
  /\ fetch_count (step w e) = fetch_count w
  /\ inflight_previews (step w e) = inflight_previews w.
Proof.
  intros He. destruct e as [| | | |path|i s]; try discriminate.
  - rewrite step_click_add_files.
    unfold fetch_count, inflight_previews.
    cbn [previews isLoadingPreview calls pending].
    rewrite inflight_suspend_dialog by reflexivity.
    rewrite filter_app. simpl. now rewrite app_nil_r.
  - rewrite step_click_add_folder.
    unfold fetch_count, inflight_previews.
    cbn [previews isLoadingPreview calls pending].
    rewrite inflight_suspend_dialog by reflexivity.
    rewrite filter_app. simpl. now rewrite app_nil_r.
  - cbn [step]. unfold resume.
    destruct (nth_error (pending w) i) as [t|] eqn:Hi; [|now repeat split].
    pose proof (remove_nth_filter is_preview_task (pending w) i t Hi) as Hcount.
    destruct s as [r|r|r|r]; try discriminate;
      destruct t as [sp|sp|fp|fp]; try (now repeat split);
      cbn [is_preview_task] in Hcount; unfold fetch_count, inflight_previews.
    + destruct (handleAddFiles_resume_frame sp r (drop_pending i w))
        as (-> & -> & -> & ->).
      cbn [drop_pending previews isLoadingPreview pending calls].
      repeat split. lia.
    + destruct (handleAddFolder_resume_frame sp r (drop_pending i w))
        as (-> & -> & -> & ->).
      cbn [drop_pending previews isLoadingPreview pending calls].
      repeat split. lia.
Qed.

Lemma adding_leaves_previews_witness :
  let entry := mkPreview "x.py" "x.py" "..." 120 in
  let w := run (mount ["x.py"] "http://localhost:5167")
               [ClickPreview; Settle 0 (FetchResponse (Resolved true));
                Settle 0 (JsonBody (Resolved [entry])); ClickAddFiles] in
  let e := Settle 0 (DialogFiles (Resolved (Some ["y.py"]))) in
  paths (step w e) = ["x.py"; "y.py"]
  /\ previews (step w e) = [entry].
Proof.
  intros entry w e.
  assert (He : is_add_event e = true) by reflexivity.
  assert (Hw : previews w = [entry]) by (vm_compute; reflexivity).
  split; [vm_compute; reflexivity|].
  rewrite <- Hw. exact (proj1 (adding_leaves_previews w e He)).
Defined.

(* ------------------------------------------------------------------ *)
(** ** More on display names *)

Lemma has_separator_app (a b : string) :
  has_separator (a ++ b)%string = has_separator a || has_separator b.
Proof.
  induction a as [|c a IH]; simpl; [reflexivity|].
  now rewrite IH, orb_assoc.
Qed.

Lemma last_segment_join (dir name : string) (c : ascii) :
  is_separator c = true ->
  has_separator name = false ->
  last_segment (dir ++ String c name)%string = name.
Proof.
  intros Hc Hn. induction dir as [|d dir IH]; cbn [String.append last_segment].
  - now rewrite Hn, Hc.
  - rewrite has_separator_app. cbn [has_separator]. rewrite Hc.
    now rewrite orb_true_r.
Qed.

Lemma truthy_true (s : string) : truthy s = true <-> s <> "".
Proof.
  unfold truthy. destruct (String.eqb_spec s ""); simpl; split; congruence.
Qed.

(** X10. The display name of a directory, a separator ([/] or [\]) and a
    non-empty name without separators is that name, whatever the directory
    part is and whichever separators it uses. *)
Theorem getFilename_join (dir name : string) (c : ascii) :
  is_separator c = true ->
  has_separator name = false ->
  name <> "" ->
  getFilename (dir ++ String c name)%string = name.
Proof.
  intros Hc Hn Hne. rewrite getFilename_eq, (last_segment_join dir name c Hc Hn).
  apply truthy_true in Hne. now rewrite Hne.
Qed.

Lemma getFilename_join_witness :
  getFilename ("C:\Users\me/notes" ++ String backslash "todo.md")%string = "todo.md".
Proof.
  assert (Hc : is_separator backslash = true) by reflexivity.
  assert (Hn : has_separator "todo.md" = false) by reflexivity.
  assert (Hne : "todo.md" <> "") by discriminate.
  exact (getFilename_join "C:\Users\me/notes" "todo.md" backslash Hc Hn Hne).
Defined.

(** X11. A path that ends in a separator is shown whole: its last segment
    is empty, so the fallback [|| path] applies. *)
Theorem getFilename_trailing (dir : string) (c : ascii) :
  is_separator c = true ->
  getFilename (dir ++ String c "")%string = (dir ++ String c "")%string.
Proof.
  intros Hc. rewrite getFilename_eq.
  now rewrite (last_segment_join dir "" c Hc eq_refl).
Qed.

Lemma getFilename_trailing_witness :
  getFilename ("C:\Users\me" ++ String backslash "")%string = "C:\Users\me\".
Proof.
  exact (getFilename_trailing "C:\Users\me" backslash eq_refl).
Defined.

(** X12. A display name is its own display name, and a path without
    separators is its own display name. *)
Theorem getFilename_idempotent (path : string) :
  getFilename (getFilename path) = getFilename path
  /\ (has_separator path = false -> getFilename path = path).
Proof.
  split.
  - rewrite (getFilename_eq path).
    destruct (truthy (last_segment path)) eqn:Ht.
    + destruct (last_segment_spec path) as [Hn _].
      rewrite getFilename_eq, (last_segment_no_separator _ Hn). now rewrite Ht.
    + rewrite getFilename_eq. now rewrite Ht.
  - intros Hn. rewrite getFilename_eq, (last_segment_no_separator _ Hn).
    now destruct (truthy path).
Qed.

(** X13. The display name is empty only for the empty path: every row of
    the list has a visible name. *)
Theorem getFilename_empty_iff (path : string) :
  getFilename path = "" <-> path = "".
Proof.
  rewrite getFilename_eq. split.
  - destruct (truthy (last_segment path)) eqn:Ht; [|trivial].
    apply truthy_true in Ht. intros He. contradiction.
  - intros ->. reflexivity.
Qed.

(* ------------------------------------------------------------------ *)
(** ** More on the PathSet operations *)

Lemma addMany_paths (w : world) (incoming : list string) :
  paths (PathSet.addMany w incoming) = merge (paths w) incoming.
Proof.
  unfold PathSet.addMany. destruct incoming as [|x incoming].
  - now rewrite handleAddFiles_resume_empty.
  - rewrite handleAddFiles_resume_run by discriminate.
    unfold paths. cbn [arrays selectedPaths]. apply deref_new.
Qed.

(** X14. Merging the same dialog result a second time changes nothing in
    the selection, and so does merging the selection into itself. *)
Theorem addMany_idempotent (w : world) (incoming : list string) :
  paths (PathSet.addMany (PathSet.addMany w incoming) incoming)
  = paths (PathSet.addMany w incoming)
  /\ paths (PathSet.addMany w (paths w)) = paths w.
Proof.
  rewrite !addMany_paths. split.
  - apply merge_all_present. intros y Hy. apply merge_In. now right.
  - now apply merge_all_present.
Qed.

(** X15. The folder dialog adds a path as the file dialog adds a list of
    that one path, except for the empty string: [handleAddFolder] tests
    [if (selected)] and does not add it, [handleAddFiles] adds it. *)
Theorem addOne_as_addMany (w : world) (p : string) :
  paths (PathSet.addOne w p)
  = (if String.eqb p "" then paths w else paths (PathSet.addMany w [p]))
  /\ paths (PathSet.addMany w [""])
     = (if includes (paths w) "" then paths w else paths w ++ [""]).
Proof.
  rewrite !addMany_paths. unfold merge. cbn [fold_left]. split.
  - destruct (includes (paths w) p) eqn:Hin; cbn [negb].
    + apply includes_In in Hin. rewrite (addOne_present w p Hin).
      now destruct (String.eqb p "").
    + apply includes_not_In in Hin. rewrite (addOne_absent w p Hin).
      unfold truthy. now destruct (String.eqb p "").
  - now destruct (includes (paths w) "").
Qed.

Lemma filter_remove_one (p : string) (l1 l2 : list string) :
  ~ In p l1 -> ~ In p l2 ->
  filter (fun q => negb (String.eqb q p)) (l1 ++ p :: l2) = l1 ++ l2.
Proof.
  intros H1 H2. rewrite filter_app. cbn [filter].
  rewrite String.eqb_refl. cbn [negb].
  now rewrite !filter_absent.
Qed.

(** X16. From a selection without duplicates, removing a selected path
    takes out that one element and keeps the others in their order; the
    selection gets shorter by one. *)
Theorem remove_takes_one (w : world) (p : string) :
  NoDup (paths w) ->
  In p (paths w) ->
  (exists before behind,
      paths w = before ++ p :: behind
      /\ paths (PathSet.remove w p) = before ++ behind)
  /\ S (length (paths (PathSet.remove w p))) = length (paths w)
  /\ ~ In p (paths (PathSet.remove w p)).
Proof.
  intros Hnd Hin. rewrite remove_paths.
  destruct (in_split _ _ Hin) as (before & behind & Hsplit).
  rewrite Hsplit in Hnd |- *.
  apply NoDup_remove_2 in Hnd.
  assert (H1 : ~ In p before) by (intros H; apply Hnd, in_or_app; now left).
  assert (H2 : ~ In p behind) by (intros H; apply Hnd, in_or_app; now right).
  rewrite (filter_remove_one p before behind H1 H2).
  split; [now exists before, behind|]. split.
  - rewrite !length_app. simpl. lia.
  - exact Hnd.
Qed.

Lemma remove_takes_one_witness :
  let w := mount ["a.txt"; "b.txt"; "c.txt"] "http://localhost:5167" in
  paths (PathSet.remove w "b.txt") = ["a.txt"; "c.txt"]
  /\ S (length (paths (PathSet.remove w "b.txt"))) = length (paths w).
Proof.
  intros w.
  assert (Hnd : NoDup (paths w))
    by (vm_compute; repeat constructor; simpl; intuition discriminate).
  assert (Hin : In "b.txt" (paths w)) by (vm_compute; intuition).
  split; [vm_compute; reflexivity|].
  exact (proj1 (proj2 (remove_takes_one w "b.txt" Hnd Hin))).
Defined.

(** X17. Removal and clearing notify the owner every time, with an array
    that was not in the store before: also when the path to remove is not
    selected or the selection is empty already, where the new array holds
    what the old one held. *)
Theorem remove_and_clear_always_notify (w : world) (p : string) :
  wf w = true ->
  (calls (PathSet.remove w p)
   = calls w ++ [OnSelectionChange (selectedPaths (PathSet.remove w p))]
   /\ selectedPaths (PathSet.remove w p) = length (arrays w)
   /\ selectedPaths (PathSet.remove w p) <> selectedPaths w
   /\ (~ In p (paths w) -> paths (PathSet.remove w p) = paths w))
  /\ (calls (PathSet.clear w)
      = calls w ++ [OnSelectionChange (selectedPaths (PathSet.clear w))]
      /\ selectedPaths (PathSet.clear w) = length (arrays w)
      /\ selectedPaths (PathSet.clear w) <> selectedPaths w).
Proof.
  intros Hwf. apply wf_iff in Hwf. destruct Hwf as [Hsp _].
  split.
  - split; [reflexivity|]. split; [reflexivity|]. split.
    + unfold PathSet.remove, handleRemovePath. run_handler. lia.
    + intros Hp. rewrite remove_paths. now apply filter_absent.
  - split; [reflexivity|]. split; [reflexivity|].
    unfold PathSet.clear, handleClearAll. run_handler. lia.
Qed.

Lemma remove_and_clear_always_notify_witness :
  let w := mount ["a.txt"] "http://localhost:5167" in
  calls (PathSet.remove w "zzz") = [OnSelectionChange 1]
  /\ paths (PathSet.remove w "zzz") = ["a.txt"].
Proof.
  intros w.
  assert (Hwf : wf w = true) by reflexivity.
  destruct (remove_and_clear_always_notify w "zzz" Hwf) as [(Hc & Hs & _ & _) _].
  split; [|vm_compute; reflexivity].
  rewrite Hc, Hs. reflexivity.
Defined.

Lemma clear_paths_empty (w : world) :
  paths (PathSet.clear w) = [] /\ selectedPaths (PathSet.clear w) = length (arrays w).
Proof.
  unfold PathSet.clear, handleClearAll, paths. run_handler.
  split; [apply deref_new|reflexivity].
Qed.

(* ------------------------------------------------------------------ *)
(** ** More on preview requests *)

(** X18. [handlePreview] sends the whole selection of its render in one
    request and sets the loading flag; it does not look at the flag itself.
    Called while a request is in flight it sends another one: only the
    disabled button keeps the requests apart. *)
Theorem handlePreview_sends_selection (w : world) :
  paths w <> [] ->
  let w' := exec (handlePreview (selectedPaths w)) w in
  calls w' = calls w ++ [Fetch (apiBaseUrl w ++ "/read-context-files") "" (paths w)]
  /\ fetch_count w' = S (fetch_count w)
  /\ inflight_previews w' = S (inflight_previews w)
  /\ isLoadingPreview w' = true
  /\ previews w' = previews w
  /\ paths w' = paths w.
Proof.
  intros Hp. cbn zeta. rewrite (handlePreview_run w Hp).
  unfold fetch_count, inflight_previews, paths.
  cbn [arrays selectedPaths previews isLoadingPreview pending calls].
  rewrite inflight_suspend_preview by reflexivity.
  rewrite filter_app, length_app. simpl. repeat split. lia.
Qed.

Lemma handlePreview_sends_selection_witness :
  let w := run (mount ["x.py"; "y.py"] "http://localhost:5167") [ClickPreview] in
  isLoadingPreview w = true
  /\ calls (exec (handlePreview (selectedPaths w)) w)
     = [Fetch "http://localhost:5167/read-context-files" "" ["x.py"; "y.py"];
        Fetch "http://localhost:5167/read-context-files" "" ["x.py"; "y.py"]].
Proof.
  intros w.
  assert (Hp : paths w <> []) by (vm_compute; discriminate).
  split; [vm_compute; reflexivity|].
  rewrite (proj1 (handlePreview_sends_selection w Hp)).
  vm_compute. reflexivity.
Defined.

(** X19. Clear All does not stop a request in flight: when the request
    then succeeds, the previews are the entries received although the
    selection is empty, and the loading flag is cleared. *)
Theorem clear_then_stale_response (w : world) (i : nat) (fp : list string)
    (data : list ContextFilePreview) :
  nth_error (pending w) i = Some (PreviewFetchK fp) ->
  let w' := finish_attempt i (Success data) (PathSet.clear w) in
  paths w' = []
  /\ previews w' = data
  /\ isLoadingPreview w' = false.
Proof.
  intros Hi. cbn zeta.
  assert (Hc : nth_error (pending (PathSet.clear w)) i = Some (PreviewFetchK fp))
    by exact Hi.
  split; [|split].
  - unfold finish_attempt, run. cbn [fold_left step].
    rewrite (resume_json_last _ i fp (Resolved data) Hc).
    unfold handlePreview_afterJson, paths. run_handler.
    exact (proj1 (clear_paths_empty w)).
  - now apply (finish_success_previews _ i fp).
  - unfold finish_attempt, run. cbn [fold_left step].
    now rewrite (resume_json_last _ i fp (Resolved data) Hc).
Qed.

Lemma clear_then_stale_response_witness :
  let entry := mkPreview "x.py" "x.py" "..." 120 in
  let w := run (mount ["x.py"] "http://localhost:5167") [ClickPreview] in
  let w' := finish_attempt 0 (Success [entry]) (PathSet.clear w) in
  paths w' = [] /\ previews w' = [entry].
Proof.
  intros entry w w'.
  assert (Hi : nth_error (pending w) 0 = Some (PreviewFetchK ["x.py"]))
    by (vm_compute; reflexivity).
  destruct (clear_then_stale_response w 0 ["x.py"] [entry] Hi) as (Hp & Hv & _).
  split; [exact Hp|exact Hv].
Defined.
